(** * Drawi game agent: lifecycle of the timed contest

    A shallow embedding of [src/drawi/utils.py], [src/drawi/game_store.py]
    and [src/drawi/game_agent.py], followed by the properties of the
    game lifecycle that the specification states about them.  The tools of
    [src/drawi/tools.py] that the agent calls and the check of the
    environment in [src/drawi/run_scheduler.py] are embedded after them,
    with further properties of the whole at the end.

    Conventions of the embedding.
    - A Python [str] is a [string]: a sequence of characters, each a code
      point below 256.  Literals of the program that contain other
      characters (the emoji of the announcements) are kept as their UTF-8
      bytes; no definition looks inside them.
    - A Python [dict] with string keys is a [gmap string value].
    - A [datetime] is an integer count of microseconds since 0001-01-01;
      the library refuses dates after year 9999 with [OverflowError].
    - Stateful code lives in the monad [M]: a state (store, log, calls made
      to the collaborators) threaded through, and a result that is either a
      value or a raised exception.
    - The collaborators (platform, judge, clock, random generator,
      environment variables) are the fields of [env]; each answer may
      depend on how many answers were given before. *)

From Stdlib Require Import ZArith NArith Ascii String List Bool Lia.
From Stdlib Require Import DecimalString.
From stdpp Require Import base strings gmap list fin_maps.

Local Open Scope Z_scope.

(** ** Python strings *)

Module PyStr.

Definition code (c : ascii) : N := N_of_ascii c.

Definition in_range (lo hi : ascii) (c : ascii) : bool :=
  (code lo <=? code c)%N && (code c <=? code hi)%N.

Definition is_digit (c : ascii) : bool := in_range "0" "9" c.

Definition digit_value (c : ascii) : Z := Z.of_N (code c) - 48.

(** [str.isspace] on the code points below 256. *)
Definition is_space (c : ascii) : bool :=
  let n := code c in
  ((9 <=? n) && (n <=? 13) || (28 <=? n) && (n <=? 32)
   || (n =? 133) || (n =? 160))%N.

(** The word characters of [re] on [str] patterns ([\w]): alphanumeric
    in the Unicode database, or the underscore. *)
Definition is_word (c : ascii) : bool :=
  let n := code c in
  (in_range "a" "z" c || in_range "A" "Z" c || in_range "0" "9" c
   || (n =? 95) || (n =? 170) || (n =? 178) || (n =? 179) || (n =? 181)
   || (n =? 185) || (n =? 186) || (188 <=? n) && (n <=? 190)
   || (192 <=? n) && (n <=? 214) || (216 <=? n) && (n <=? 246)
   || (248 <=? n) && (n <=? 255))%N.

Fixpoint lstrip (s : string) : string :=
  match s with
  | EmptyString => EmptyString
  | String c r => if is_space c then lstrip r else s
  end.

Fixpoint rstrip (s : string) : string :=
  match s with
  | EmptyString => EmptyString
  | String c r =>
      match rstrip r with
      | EmptyString => if is_space c then EmptyString else String c EmptyString
      | r' => String c r'
      end
  end.

Definition strip (s : string) : string := rstrip (lstrip s).

Fixpoint starts_with (p s : string) : bool :=
  match p, s with
  | EmptyString, _ => true
  | String a p', String b s' => if Ascii.eqb a b then starts_with p' s' else false
  | String _ _, EmptyString => false
  end.

(** [needle in haystack] *)
Fixpoint contains (needle haystack : string) : bool :=
  starts_with needle haystack ||
  match haystack with
  | EmptyString => false
  | String _ r => contains needle r
  end.

Definition upper (c : ascii) : ascii :=
  if in_range "a" "z" c then ascii_of_N (code c - 32) else c.

Definition lower (c : ascii) : ascii :=
  if in_range "A" "Z" c then ascii_of_N (code c + 32) else c.

Fixpoint map_chars (f : ascii -> ascii) (s : string) : string :=
  match s with
  | EmptyString => EmptyString
  | String c r => String (f c) (map_chars f r)
  end.

(** [str.capitalize], on the identifiers it is applied to (ASCII letters
    and underscores). *)
Definition capitalize (s : string) : string :=
  match s with
  | EmptyString => EmptyString
  | String c r => String (upper c) (map_chars lower r)
  end.

(** [int(s)] in base ten: surrounding white space, an optional sign,
    digits that single underscores may separate; [None] stands for
    [ValueError]. *)
Fixpoint digits_value (acc : Z) (after_digit : bool) (s : string) : option Z :=
  match s with
  | EmptyString => if after_digit then Some acc else None
  | String c r =>
      if is_digit c then digits_value (10 * acc + digit_value c) true r
      else if Ascii.eqb c "_" then
        (if after_digit then digits_value acc false r else None)
      else None
  end.

Definition int_of_str (s : string) : option Z :=
  match strip s with
  | String "-" r => Z.opp <$> digits_value 0 false r
  | String "+" r => digits_value 0 false r
  | t => digits_value 0 false t
  end.

(** [str(n)] for an integer. *)
Definition str_of_int (n : Z) : string := NilZero.string_of_int (Z.to_int n).

(** [template.format(result_time=v)] for templates whose only
    replacement field is [{result_time}]. *)
Definition field_result_time : string := "{result_time}".

Fixpoint format_skip (skip : nat) (v : string) (s : string) : string :=
  match s with
  | EmptyString => EmptyString
  | String c r =>
      match skip with
      | S k => format_skip k v r
      | O =>
          if starts_with field_result_time s
          then v +:+ format_skip (String.length field_result_time - 1) v r
          else String c (format_skip 0 v r)
      end
  end.

Definition format_result_time (template v : string) : string :=
  format_skip 0 v template.

Definition nl : string := String (ascii_of_nat 10) EmptyString.

End PyStr.

(** ** The [base58] package, as [utils.py] uses it *)

Module Base58.

Definition alphabet : string :=
  "123456789ABCDEFGHJKLMNPQRSTUVWXYZabcdefghijkmnopqrstuvwxyz".

Fixpoint index_from (i : N) (c : ascii) (s : string) : option N :=
  match s with
  | EmptyString => None
  | String a r => if Ascii.eqb a c then Some i else index_from (i + 1)%N c r
  end.

Definition digit (c : ascii) : option N := index_from 0 c alphabet.

(** [b58decode_int]: the number the digits spell in base 58; [None]
    stands for the [ValueError] raised at a character outside the
    alphabet. *)
Fixpoint b58decode_int_from (acc : N) (v : string) : option N :=
  match v with
  | EmptyString => Some acc
  | String c r =>
      match digit c with
      | Some d => b58decode_int_from (acc * 58 + d)%N r
      | None => None
      end
  end.

Definition b58decode_int (v : string) : option N := b58decode_int_from 0 v.

Fixpoint strip_ones (v : string) : nat * string :=
  match v with
  | String "1" r => let '(n, t) := strip_ones r in (S n, t)
  | _ => (O, v)
  end.

Definition byte_of_N (n : N) : Byte.byte :=
  match Byte.of_N (n mod 256) with
  | Some b => b
  | None => Byte.x00
  end.

Fixpoint be_bytes (fuel : nat) (n : N) (acc : list Byte.byte) : list Byte.byte :=
  match fuel with
  | O => acc
  | S f =>
      if (n =? 0)%N then acc
      else be_bytes f (n / 256)%N (byte_of_N n :: acc)
  end.

(** [n.to_bytes((n.bit_length() + 7) // 8, 'big')] *)
Definition int_to_bytes (n : N) : list Byte.byte :=
  be_bytes (N.to_nat (N.size n)) n [].

(** [b58decode]: every leading ['1'] is a zero byte, the rest is the
    big-endian form of the number. *)
Definition b58decode (v : string) : option (list Byte.byte) :=
  let v := PyStr.rstrip v in
  let '(zeros, rest) := strip_ones v in
  match b58decode_int rest with
  | Some acc => Some (replicate zeros Byte.x00 ++ int_to_bytes acc)
  | None => None
  end.

End Base58.

(** ** [utils.py] *)

Module Utils.

(** The class [[1-9A-HJ-NP-Za-km-z]] of the pattern. *)
Definition address_char (c : ascii) : bool :=
  PyStr.in_range "1" "9" c || PyStr.in_range "A" "H" c
  || PyStr.in_range "J" "N" c || PyStr.in_range "P" "Z" c
  || PyStr.in_range "a" "k" c || PyStr.in_range "m" "z" c.

Definition min_len : nat := 32.
Definition max_len : nat := 44.

Definition word_opt (c : option ascii) : bool :=
  match c with
  | Some a => PyStr.is_word a
  | None => false
  end.

(** [\b]: exactly one of the two neighbours is a word character. *)
Definition word_boundary (before after : option ascii) : bool :=
  xorb (word_opt before) (word_opt after).

Definition head_char (s : string) : option ascii :=
  match s with
  | EmptyString => None
  | String c _ => Some c
  end.

(** The longest run of class characters at the front of [s], at most
    [n] of them: what the greedy [{32,44}] takes first. *)
Fixpoint take_class (n : nat) (s : string) : string :=
  match n, s with
  | S k, String c r => if address_char c then String c (take_class k r) else EmptyString
  | _, _ => EmptyString
  end.

Fixpoint last_char (d : option ascii) (s : string) : option ascii :=
  match s with
  | EmptyString => d
  | String c r => last_char (Some c) r
  end.

Fixpoint drop (n : nat) (s : string) : string :=
  match n, s with
  | S k, String _ r => drop k r
  | _, _ => s
  end.

Fixpoint prefix_of (n : nat) (s : string) : string :=
  match n, s with
  | S k, String c r => String c (prefix_of k r)
  | _, _ => EmptyString
  end.

(** Backtracking of the counted repetition: the lengths [k], [k-1], ...
    down to [min_len] are tried until the closing [\b] holds. *)
Fixpoint backtrack (tries : nat) (k : nat) (before : option ascii) (s : string)
  : option string :=
  match tries with
  | O => None
  | S t =>
      let m := prefix_of k s in
      if word_boundary (last_char before m) (head_char (drop k s))
      then Some m
      else match k with
           | O => None
           | S k' => backtrack t k' before s
           end
  end.

(** One attempt of [\b[1-9A-HJ-NP-Za-km-z]{32,44}\b] at a position,
    [before] being the character in front of it. *)
Definition match_here (before : option ascii) (s : string) : option string :=
  if word_boundary before (head_char s) then
    let k := String.length (take_class max_len s) in
    if (min_len <=? k)%nat then backtrack (S (k - min_len)) k before s else None
  else None.

(** [re.findall]: the matches from left to right, the search resuming
    where the last match ended. *)
Fixpoint findall_from (skip : nat) (before : option ascii) (s : string)
  : list string :=
  match s with
  | EmptyString => []
  | String c r =>
      match skip with
      | S k => findall_from k (Some c) r
      | O =>
          match match_here before s with
          | Some m => m :: findall_from (String.length m - 1) (Some c) r
          | None => findall_from 0 (Some c) r
          end
      end
  end.

Definition findall (text : string) : list string := findall_from 0 None text.

(** A Python [set] of strings: its distinct elements, kept here in the
    order they were added.  The order in which the interpreter iterates
    over them is not this one; see [env_set_first]. *)
Abbreviation pyset := (list string).

Definition set_add (x : string) (s : pyset) : pyset :=
  if decide (x ∈ s) then s else s ++ [x].

Definition is_address (candidate : string) : bool :=
  match Base58.b58decode candidate with
  | Some decoded => (length decoded =? 32)%nat
  | None => false
  end.

Definition extract_solana_addresses (text : string) : pyset :=
  fold_left
    (fun valid_addresses candidate =>
       if is_address candidate then set_add candidate valid_addresses
       else valid_addresses)
    (findall text) [].

End Utils.

(** ** Python values and dictionaries *)

Inductive atom : Type :=
| ANone
| ABool (b : bool)
| AInt (n : Z)
| AStr (s : string)
| ATime (t : Z).

(** A value is a scalar or a dictionary of scalars (the [author] of a
    reply); the program reads nothing nested deeper. *)
Inductive value : Type :=
| VAtom (a : atom)
| VDict (d : gmap string atom).

Abbreviation VNone := (VAtom ANone).
Abbreviation VBool b := (VAtom (ABool b)).
Abbreviation VInt n := (VAtom (AInt n)).
Abbreviation VStr s := (VAtom (AStr s)).
Abbreviation VTime t := (VAtom (ATime t)).

Abbreviation dict := (gmap string value).

#[global] Instance atom_eq_dec : EqDecision atom.
Proof. solve_decision. Defined.

#[global] Instance value_eq_dec : EqDecision value.
Proof. solve_decision. Defined.

Definition atom_truthy (a : atom) : bool :=
  match a with
  | ANone => false
  | ABool b => b
  | AInt n => negb (n =? 0)
  | AStr s => negb (String.eqb s "")
  | ATime _ => true
  end.

(** Truth value of an object in a condition. *)
Definition truthy (v : value) : bool :=
  match v with
  | VAtom a => atom_truthy a
  | VDict d => negb (bool_decide (d = ∅))
  end.

(** [d.get(k)] and [d.get(k, default)] *)
Definition dict_get (d : dict) (k : string) : value := default VNone (d !! k).
Definition dict_get_or (d : dict) (k : string) (dflt : value) : value :=
  default dflt (d !! k).
Definition atoms_get_or (d : gmap string atom) (k : string) (dflt : atom) : atom :=
  default dflt (d !! k).

(** [k in d] *)
Definition has_key (d : dict) (k : string) : bool := bool_decide (is_Some (d !! k)).

(** ** Exceptions and results *)

Inductive exn : Type :=
| KeyError (k : string)
| IndexError
| TypeError
| ValueError
| OverflowError
| AttributeError
| StopIteration
| JudgeError (what : string).

Inductive outcome (A : Type) : Type :=
| Ok (a : A)
| Raise (e : exn).
Arguments Ok {A} a.
Arguments Raise {A} e.

#[global] Instance exn_eq_dec : EqDecision exn.
Proof. solve_decision. Defined.

#[global] Instance outcome_eq_dec {A} `{EqDecision A} : EqDecision (outcome A).
Proof. solve_decision. Defined.

#[global] Instance outcome_ret : MRet outcome := @Ok.
#[global] Instance outcome_bind : MBind outcome := fun A B f m =>
  match m with
  | Ok a => f a
  | Raise e => Raise e
  end.

(** [d[k]] *)
Definition getitem (d : dict) (k : string) : outcome value :=
  match d !! k with
  | Some v => Ok v
  | None => Raise (KeyError k)
  end.

(** [l[i]] *)
Definition list_getitem {A} (l : list A) (i : nat) : outcome A :=
  match l !! i with
  | Some x => Ok x
  | None => Raise IndexError
  end.

(** A value used where only a [str] works. *)
Definition as_str (v : value) : outcome string :=
  match v with
  | VStr s => Ok s
  | _ => Raise TypeError
  end.

(** [needle in v]: a substring of a string, a key of a dictionary. *)
Definition contains_str (needle : string) (v : value) : outcome bool :=
  match v with
  | VStr s => Ok (PyStr.contains needle s)
  | VDict d => Ok (bool_decide (is_Some (d !! needle)))
  | _ => Raise TypeError
  end.

(** ** Dates *)

Module Datetime.

Definition us_per_second : Z := 1000000.
Definition us_per_day : Z := 86400 * us_per_second.

(** One past [datetime.max], 9999-12-31 23:59:59.999999. *)
Definition max_datetime : Z := 3652059 * us_per_day.

(** [timedelta(seconds=s)], [timedelta(minutes=m)]: at most 999999999
    days either way. *)
Definition timedelta (us : Z) : outcome Z :=
  if (-999999999 * us_per_day <=? us) && (us <? 1000000000 * us_per_day)
  then Ok us else Raise OverflowError.

Definition timedelta_seconds (s : Z) : outcome Z := timedelta (s * us_per_second).
Definition timedelta_minutes (m : Z) : outcome Z := timedelta (m * 60 * us_per_second).

(** [t + delta] *)
Definition add (t delta : Z) : outcome Z :=
  let r := t + delta in
  if (0 <=? r) && (r <? max_datetime) then Ok r else Raise OverflowError.

(** [t < v] for a stored value [v] *)
Definition lt (t : Z) (v : value) : outcome bool :=
  match v with
  | VTime t' => Ok (t <? t')
  | _ => Raise TypeError
  end.

End Datetime.

(** ** Verdicts of the judge (the pydantic models of [game_agent.py]) *)

Record WinnerResult : Type := MkWinnerResult {
  wallet : string;
  reply_id : string
}.

Record WinnerResponse : Type := MkWinnerResponse {
  result : WinnerResult;
  chain_of_thought : string
}.

(** What [select_winner_llm] hands back: the structured response, or the
    plain dictionary of its [except] branch. *)
Inductive verdict : Type :=
| Structured (response : WinnerResponse)
| FallbackDict (first_entry : dict) (explanation : string).

#[global] Instance WinnerResult_eq_dec : EqDecision WinnerResult.
Proof. solve_decision. Defined.

#[global] Instance WinnerResponse_eq_dec : EqDecision WinnerResponse.
Proof. solve_decision. Defined.

#[global] Instance verdict_eq_dec : EqDecision verdict.
Proof. solve_decision. Defined.

(** ** The world: store, log, collaborators *)

Inductive log_level : Type := INFO | ERROR.

(** Log records keep the arguments of the message instead of the
    formatted text. *)
Inductive log_message : Type :=
| MsgProcessingClosure (game_id : value)
| MsgRateLimit (game_id : value) (error_message : value)
| MsgFetchError (game_id : value) (error_message : value)
| MsgNoReplies (game_id : value)
| MsgRepliesReceived (game_id : value) (n : nat)
| MsgNoValidWallet (game_id : value)
| MsgWinnerSelected (game_id : value) (winner : verdict)
| MsgAnnouncementError (game_id : value) (error : value)
| MsgWinnerStored (game_id : value)
| MsgCreatingGame (game_type : string) (at_time : Z)
| MsgPostError (error : value)
| MsgNoTweetId
| MsgGamePosted (game_type : string) (tweet_id : value) (close_at : Z)
| MsgGameCreated (game_id : string)
| MsgGameUpdated (game_id : value) (fields : dict).

(** The calls made to the platform and to the judge, in order. *)
Inductive call : Type :=
| CallPostTweet (text : string)
| CallReplyToTweet (tweet_id : value) (text : string)
| CallFindAnswers (tweet_id : value)
| CallJudge (game_type : value) (instructions : string) (entries : list dict).

Record world : Type := MkWorld {
  w_store : list dict;                    (* the [games] collection *)
  w_log : list (log_level * log_message);
  w_calls : list call;
  w_ticks : nat                           (* answers given by [env] so far *)
}.

#[global] Instance log_level_eq_dec : EqDecision log_level.
Proof. solve_decision. Defined.

#[global] Instance log_message_eq_dec : EqDecision log_message.
Proof. solve_decision. Defined.

#[global] Instance call_eq_dec : EqDecision call.
Proof. solve_decision. Defined.

#[global] Instance world_eq_dec : EqDecision world.
Proof. solve_decision. Defined.

Inductive judge_outcome : Type :=
| JudgeReturns (response : WinnerResponse)
| JudgeRaises (e : exn).

(** The collaborators.  The first argument of an answer is the number of
    answers given before it.  [env_set_first] stands for the interpreter:
    a [set] of strings is iterated in the order of its hash table, which
    the hashes of the strings decide, and these are seeded anew for every
    process; given the elements in the order they were added, it tells
    the position of the one that the iteration yields first. *)
Record env : Type := MkEnv {
  env_now : nat -> Z;                                  (* [datetime.now()] *)
  env_random : nat -> nat;                             (* the draw of [random.choice] *)
  env_uuid4 : nat -> string;                           (* [str(uuid.uuid4())] *)
  env_getenv : string -> option string;                (* [os.getenv] *)
  env_set_first : list string -> nat;                  (* which element a set yields first *)
  env_load_chat_model : outcome unit;                  (* [load_chat_model(config.model)] *)
  env_post_tweet : nat -> string -> dict;
  env_reply_to_tweet : nat -> value -> string -> dict;
  env_find_answers : nat -> value -> list dict;
  env_judge : nat -> value -> string -> list dict -> judge_outcome
}.

Definition M (A : Type) : Type := world -> outcome A * world.

#[global] Instance M_ret : MRet M := fun A a w => (Ok a, w).
#[global] Instance M_bind : MBind M := fun A B f m w =>
  match m w with
  | (Ok a, w') => f a w'
  | (Raise e, w') => (Raise e, w')
  end.

Definition lift {A} (o : outcome A) : M A := fun w => (o, w).

(** [try: body  except Exception: handler] *)
Definition try_except {A} (body : M A) (handler : exn -> M A) : M A := fun w =>
  match body w with
  | (Ok a, w') => (Ok a, w')
  | (Raise e, w') => handler e w'
  end.

Definition tick (w : world) : world :=
  MkWorld (w_store w) (w_log w) (w_calls w) (S (w_ticks w)).

Definition record_call (c : call) (w : world) : world :=
  MkWorld (w_store w) (w_log w) (w_calls w ++ [c]) (S (w_ticks w)).

Definition logging (lvl : log_level) (m : log_message) : M unit := fun w =>
  (Ok tt, MkWorld (w_store w) (w_log w ++ [(lvl, m)]) (w_calls w) (w_ticks w)).

Definition now (e : env) : M Z := fun w => (Ok (env_now e (w_ticks w)), tick w).

(** [random.choice(seq)] *)
Definition random_choice {A} (e : env) (seq : list A) : M A := fun w =>
  (list_getitem seq (env_random e (w_ticks w) mod length seq)%nat, tick w).

Definition uuid4 (e : env) : M string := fun w => (Ok (env_uuid4 e (w_ticks w)), tick w).

(** [next(iter(s))] on a set: the interpreter decides which element. *)
Definition set_first (e : env) (s : Utils.pyset) : outcome string :=
  match s !! (env_set_first e s mod length s)%nat with
  | Some x => Ok x
  | None => Raise StopIteration
  end.

(** The platform calls of [tools.py], answered by [env]. *)
Definition post_tweet (e : env) (text : string) : M dict := fun w =>
  (Ok (env_post_tweet e (w_ticks w) text), record_call (CallPostTweet text) w).

Definition reply_to_tweet (e : env) (tweet_id : value) (text : string) : M dict := fun w =>
  (Ok (env_reply_to_tweet e (w_ticks w) tweet_id text),
   record_call (CallReplyToTweet tweet_id text) w).

Definition find_answers_with_conversation_id (e : env) (tweet_id : value)
  : M (list dict) := fun w =>
  (Ok (env_find_answers e (w_ticks w) tweet_id), record_call (CallFindAnswers tweet_id) w).

(** [with_structured_output(WinnerResponse)] and [ainvoke]: the judge
    answers the prompt, which the game type, the instructions and the
    entries determine, with a response of the schema, or the call raises
    (an answer that does not parse into the schema raises). *)
Definition ainvoke (e : env) (game_type : value) (instructions : string)
  (entries : list dict) : M WinnerResponse := fun w =>
  (match env_judge e (w_ticks w) game_type instructions entries with
   | JudgeReturns r => Ok r
   | JudgeRaises ex => Raise ex
   end,
   record_call (CallJudge game_type instructions entries) w).

Fixpoint for_each {A} (body : A -> M unit) (l : list A) : M unit :=
  match l with
  | [] => mret tt
  | x :: rest => body x ;; for_each body rest
  end.

(** ** [game_store.py] *)

Module GameStore.

(** [GameStore()]: the connection string must be configured. *)
Definition init (e : env) : M unit :=
  match env_getenv e "COSMOS_MONGO_URI" with
  | Some uri => if String.eqb uri "" then lift (Raise ValueError) else mret tt
  | None => lift (Raise ValueError)
  end.

(** A filter [{k: v}] of the collection: [null] also matches a missing
    field. *)
Definition matches (k : string) (v : value) (d : dict) : bool :=
  match d !! k with
  | Some v' => bool_decide (v' = v)
  | None => bool_decide (v = VNone)
  end.

Definition insert_one (d : dict) : M unit := fun w =>
  (Ok tt, MkWorld (w_store w ++ [d]) (w_log w) (w_calls w) (w_ticks w)).

(** [update_one({k: v}, {"$set": fields})]: the first document that
    matches takes the fields. *)
Fixpoint set_first_match (k : string) (v : value) (fields : dict) (coll : list dict)
  : list dict :=
  match coll with
  | [] => []
  | d :: rest =>
      if matches k v d then (fields ∪ d) :: rest
      else d :: set_first_match k v fields rest
  end.

Definition update_one (k : string) (v : value) (fields : dict) : M unit := fun w =>
  (Ok tt, MkWorld (set_first_match k v fields (w_store w)) (w_log w) (w_calls w) (w_ticks w)).

Definition find (k : string) (v : value) : M (list dict) := fun w =>
  (Ok (filter (fun d => matches k v d = true) (w_store w)), w).

(** Lines 18-28: the record of a new game. *)
Definition game_doc (game_id : string) (tweet_id : value) (game_type status : string)
  (created_at close_at : Z) : dict :=
  {[ "game_id" := VStr game_id;
     "tweet_id" := tweet_id;
     "game_type" := VStr game_type;
     "title" := VStr ("Game " +:+ PyStr.capitalize game_type);
     "status" := VStr status;
     "created_at" := VTime created_at;
     "close_at" := VTime close_at;
     "winner_tweet_id" := VNone;
     "winner_wallet" := VNone ]}.

(** The value of [status] when the caller gives none. *)
Definition default_status : string := "open".

(** Lines 17-30; a caller that leaves [status] out passes
    [default_status]. *)
Definition create_game (e : env) (game_id : string) (tweet_id : value)
  (game_type : string) (close_at : Z) (status : string) : M unit :=
  created_at ← now e;
  insert_one (game_doc game_id tweet_id game_type status created_at close_at);;
  logging INFO (MsgGameCreated game_id).

Definition update_game (e : env) (game_id : value) (update_fields : dict) : M unit :=
  updated_at ← now e;
  let update_fields := <["updated_at" := VTime updated_at]> update_fields in
  update_one "game_id" game_id update_fields;;
  logging INFO (MsgGameUpdated game_id update_fields).

Definition list_open_games : M (list dict) := find "status" (VStr "open").

End GameStore.

(** ** [game_agent.py] *)

Module GameAgent.

Definition GAME_TYPES : list string :=
  [ "fun_fact"; "emoji_story"; "best_joke"; "random_wallet";
    "improv_story"; "abstract_poetry"; "creative_challenge" ].

Definition body_lines (game_type : string) : list string :=
  if String.eqb game_type "improv_story" then
    [ "🎀 /GAME OPEN 🎀";
      "🌷 /GAME: Improve Story";
      "🌸 /REPLY: Complete the story: “Once upon a time…";
      "💒 /RULE: The most imaginative continuation wins.";
      "💌 /INCLUDE: Your Solana wallet address.";
      "💝 /PRIZE: 0.1 SOL.";
      "🦩 /RESULT: {result_time}" ]
  else if String.eqb game_type "fun_fact" then
    [ "🎀 /GAME OPEN 🎀";
      "🌷 /GAME: Fun Fact";
      "🌸 /REPLY: An interesting and little-known fact.";
      "💒 /RULE: The most fascinating fact wins.";
      "💌 /INCLUDE: Your Solana wallet address.";
      "💝 /PRIZE: 0.1 SOL.";
      "🦩 /RESULT: {result_time}" ]
  else if String.eqb game_type "emoji_story" then
    [ "🎀 /GAME OPEN 🎀";
      "🌷 /GAME: Emoji Story";
      "🌸 /REPLY: With a short story using only emojis.";
      "💒 /RULE: The most creative emoji story wins.";
      "💌 /INCLUDE: Your Solana wallet address.";
      "💝 /PRIZE: 0.1 SOL.";
      "🦩 /RESULT: {result_time}" ]
  else if String.eqb game_type "best_joke" then
    [ "🎀 /GAME OPEN 🎮";
      "🌷 /GAME: Best Joke";
      "🌸 /REPLY: Your best joke.";
      "💒 /RULE: The best joke wins.";
      "💌 /INCLUDE: Your Solana wallet address.";
      "💝 /PRIZE: 0.1 SOL.";
      "🦩 /RESULT: {result_time}" ]
  else if String.eqb game_type "abstract_poetry" then
    [ "🎀 /GAME OPEN 🎀";
      "🌷 /GAME: Abstract Poetry";
      "🌸 /REPLY: Complete the poem: “Under neon moons, the meme…";
      "💒 /RULE: The best poetic expression wins.";
      "💌 /INCLUDE: Your Solana wallet address.";
      "💝 /PRIZE: 0.1 SOL.";
      "🦩 /RESULT: {result_time}" ]
  else if String.eqb game_type "creative_challenge" then
    [ "🎀 /GAME OPEN 🎀";
      "🌷 /GAME: Creative Challenge";
      "🌸 /REPLY: Propose your unique challenge.";
      "💒 /RULE: The most intriguing challenge wins.";
      "💌 /INCLUDE: Your Solana wallet address.";
      "💝 /PRIZE: 0.1 SOL.";
      "🦩 /RESULT: {result_time}" ]
  else if String.eqb game_type "random_wallet" then
    [ "🎀 /GAME OPEN 🎀";
      "🌷 /GAME: Random Wallet";
      "🌸 /REPLY: Submit your Solana wallet address.";
      "💒 /RULE: A random selection will determine the winner.";
      "💌 /INCLUDE: Your Solana wallet address.";
      "💝 /PRIZE: 0.1 SOL.";
      "🦩 /RESULT: {result_time}" ]
  else
    [ "Game type not recognized." ].

(** The announcement of a game type: the lines above, each but the last
    ended by a newline. *)
Definition body_of (game_type : string) : string :=
  String.concat PyStr.nl (body_lines game_type).

Definition choose_game (e : env) : M (string * string) :=
  game_type ← random_choice e
    [ "fun_fact"; "emoji_story"; "best_joke"; "random_wallet";
      "improv_story"; "abstract_poetry"; "creative_challenge" ];
  mret (game_type, body_of game_type).

Definition instructions_for (game_type : value) : string :=
  match game_type with
  | VStr t =>
      if String.eqb t "fun_fact" then "pick the entry with the most interesting fact."
      else if String.eqb t "emoji_story" then "pick the entry with the most creative emoji story."
      else if String.eqb t "fastest_reply" then "pick the first valid entry, simulating the fastest reply."
      else if String.eqb t "best_joke" then "pick the entry with the best joke."
      else if String.eqb t "random_wallet" then "pick one entry at random, simulating a random selection. don't care about the content. it just needs to be random"
      else if String.eqb t "improv_story" then "pick the entry with the most imaginative story continuation."
      else if String.eqb t "abstract_poetry" then "pick the entry with the best poetic expression."
      else if String.eqb t "creative_challenge" then "pick the entry with the most intriguing creative challenge."
      else "pick one entry."
  | _ => "pick one entry."
  end.

(** [json.dumps] refuses a [datetime]. *)
Definition atom_json_ok (a : atom) : bool :=
  match a with
  | ATime _ => false
  | _ => true
  end.

Definition value_json_ok (v : value) : bool :=
  match v with
  | VAtom a => atom_json_ok a
  | VDict d => bool_decide (map_Forall (fun _ a => atom_json_ok a = true) d)
  end.

Definition json_dumps_ok (entries : list dict) : bool :=
  forallb (fun entry : dict => bool_decide (map_Forall (fun _ v => value_json_ok v = true) entry))
    entries.

Definition fallback_explanation : string :=
  "Fallback: selected the first valid entry due to error parsing LLM output.".

Definition select_winner_llm (e : env) (game_type : value) (entries : list dict)
  : M verdict :=
  lift (env_load_chat_model e);;
  let instructions := instructions_for game_type in
  (if json_dumps_ok entries then mret tt else lift (Raise TypeError));;
  response ← ainvoke e game_type instructions entries;
  try_except
    (mret (Structured response))
    (fun _ =>
       first ← lift (list_getitem entries 0);
       mret (FallbackDict first fallback_explanation)).

Definition close_game_no_winner (e : env) (game : dict) (post_announcement : dict)
  : M unit :=
  game_id ← lift (getitem game "game_id");
  GameStore.update_game e game_id
    {[ "status" := VStr "closed";
       "winner_tweet_id" := dict_get_or post_announcement "id" (VStr "");
       "winner_wallet" := VStr "";
       "chain_of_thought" := VStr "";
       "winning_tweet_text" := VStr "" ]}.

Definition announcement_no_replies : string :=
  String.concat PyStr.nl
    [ "🎮 GAME CLOSED 🎮"; "";
      "⚠️ NO REPLIES RECEIVED.";
      "😢 NO WINNER DECLARED." ].

Definition announcement_no_valid_wallet : string :=
  String.concat PyStr.nl
    [ "🎮 GAME CLOSED 🎮"; "";
      "⚠️ NO VALID WALLET FOUND.";
      "🙁 PLEASE INCLUDE YOUR SOLANA WALLET ADDRESS NEXT TIME." ].

Definition announcement_no_impressive : string :=
  String.concat PyStr.nl
    [ "🎮 GAME CLOSED 🎮"; "";
      "😞 NO IMPRESSIVE SUBMISSION RECEIVED.";
      "🙁 NO WINNER DECLARED, BETTER LUCK NEXT TIME!" ].

Definition announcement_winner (winner_wallet : string) : string :=
  String.concat PyStr.nl
    [ "🎮 GAME CLOSED 🎮"; "";
      "🏆 WINNER ANNOUNCED:";
      "👉 Wallet: " +:+ winner_wallet; "";
      "🎉 CONGRATULATIONS!" ].

(** Lines 242-252, for one reply: the entry it contributes, if any. *)
Definition entry_of_reply (e : env) (reply : dict) : outcome (option dict) :=
  content ← as_str (dict_get_or reply "text" (VStr ""));
  let addresses := Utils.extract_solana_addresses content in
  match addresses with
  | [] => mret None
  | _ :: _ =>
      first ← set_first e addresses;
      mret (Some ({[ "wallet" := VStr first;
                     "text" := VStr content;
                     "reply_id" := dict_get reply "id";
                     "author" := dict_get_or reply "author" (VDict ∅) ]} : dict))
  end.

(** Lines 240-252: the loop over the replies. *)
Fixpoint valid_entries_of (e : env) (replies : list dict) : outcome (list dict) :=
  match replies with
  | [] => mret []
  | reply :: rest =>
      o ← entry_of_reply e reply;
      entries ← valid_entries_of e rest;
      mret (match o with
            | Some entry => entry :: entries
            | None => entries
            end)
  end.

(** [v == s] for a string [s] *)
Definition equals_str (v : value) (s : string) : bool :=
  match v with
  | VStr s' => String.eqb s' s
  | _ => false
  end.

(** [next((entry for entry in valid_entries if entry["reply_id"] == rid), {})] *)
Fixpoint winning_entry_of (rid : string) (valid_entries : list dict) : outcome dict :=
  match valid_entries with
  | [] => mret ∅
  | entry :: rest =>
      v ← getitem entry "reply_id";
      if equals_str v rid then mret entry else winning_entry_of rid rest
  end.

(** A value whose [.get] is called. *)
Definition as_dict (v : value) : outcome (gmap string atom) :=
  match v with
  | VDict d => Ok d
  | VAtom _ => Raise AttributeError
  end.

(** [winner.result], [winner.chain_of_thought]: attributes, which the
    dictionary of the fallback does not have. *)
Definition as_response (winner : verdict) : outcome WinnerResponse :=
  match winner with
  | Structured r => Ok r
  | FallbackDict _ _ => Raise AttributeError
  end.

(** Lines 269-281: the text that announces the verdict. *)
Definition closing_announcement (response : WinnerResponse) : string :=
  if String.eqb (PyStr.strip (wallet (result response))) ""
  then announcement_no_impressive
  else announcement_winner (wallet (result response)).

(** Lines 291-307: the fields written for a verdict. *)
Definition winner_fields (winner_tweet_id : value) (response : WinnerResponse)
  (winning_entry : dict) (author : gmap string atom) : dict :=
  let winner_username := atoms_get_or author "username" (AStr "") in
  let winner_name := atoms_get_or author "name" (AStr "") in
  let winner_image_url := atoms_get_or author "profile_image_url" (AStr "") in
  let winner_is_verified := atoms_get_or author "verified" (ABool false) in
  {[ "status" := VStr "closed";
     "winner_tweet_id" := winner_tweet_id;
     "winner_wallet" := VStr (wallet (result response));
     "chain_of_thought" := VStr (chain_of_thought response);
     "winning_tweet_text" := dict_get_or winning_entry "text" (VStr "");
     "winner_username" := VAtom winner_username;
     "winner_name" := VAtom winner_name;
     "winner_image_url" := VAtom winner_image_url;
     "winner_author_id" := dict_get_or winning_entry "author_id" (VStr "");
     "winner_is_verified" := VAtom winner_is_verified ]}.

(** Lines 269-308: the announcement of the verdict and the closure. *)
Definition announce_and_close (e : env) (game : dict) (game_id : value)
  (valid_entries : list dict) (winner : verdict) : M unit :=
  response ← lift (as_response winner);
  let announcement := closing_announcement response in
  tweet_id ← lift (getitem game "tweet_id");
  post_announcement ← reply_to_tweet e tweet_id announcement;
  if has_key post_announcement "error" then
    error ← lift (getitem post_announcement "error");
    logging ERROR (MsgAnnouncementError game_id error)
  else
    let winner_tweet_id := dict_get post_announcement "id" in
    winning_entry ← lift (winning_entry_of (reply_id (result response)) valid_entries);
    author ← lift (as_dict (dict_get_or winning_entry "author" (VDict ∅)));
    GameStore.update_game e game_id
      (winner_fields winner_tweet_id response winning_entry author);;
    logging INFO (MsgWinnerStored game_id).

(** Line 219: the first reply carries a true [error]. *)
Definition fetch_error (replies : list dict) : option value :=
  match replies with
  | first :: _ => if truthy (dict_get first "error") then first !! "error" else None
  | [] => None
  end.

(** Lines 214-308: the closure of a game that is due. *)
Definition close_due_game (e : env) (game : dict) : M unit :=
  game_id ← lift (getitem game "game_id");
  logging INFO (MsgProcessingClosure game_id);;
  tweet_id ← lift (getitem game "tweet_id");
  replies ← find_answers_with_conversation_id e tweet_id;
  match fetch_error replies with
  | Some error_message =>
      rate_limited ← lift (contains_str "429" error_message);
      if (rate_limited : bool)
      then logging ERROR (MsgRateLimit game_id error_message)
      else logging ERROR (MsgFetchError game_id error_message)
  | None =>
      match replies with
      | [] =>
          logging INFO (MsgNoReplies game_id);;
          post_announcement ← reply_to_tweet e tweet_id announcement_no_replies;
          close_game_no_winner e game post_announcement
      | _ :: _ =>
          logging INFO (MsgRepliesReceived game_id (length replies));;
          valid_entries ← lift (valid_entries_of e replies);
          match valid_entries with
          | [] =>
              logging INFO (MsgNoValidWallet game_id);;
              post_announcement ← reply_to_tweet e tweet_id announcement_no_valid_wallet;
              close_game_no_winner e game post_announcement
          | _ :: _ =>
              game_type ← lift (getitem game "game_type");
              winner ← select_winner_llm e game_type valid_entries;
              logging INFO (MsgWinnerSelected game_id winner);;
              announce_and_close e game game_id valid_entries winner
          end
      end
  end.

(** Lines 210-212: a game without [close_at], or whose [close_at] is
    still ahead, is passed over. *)
Definition not_due (e : env) (game : dict) : M bool :=
  let close_at := dict_get game "close_at" in
  if negb (truthy close_at) then mret true
  else t ← now e; lift (Datetime.lt t close_at).

(** The body of the loop of [run_close_game_agent_task]. *)
Definition close_game (e : env) (game : dict) : M unit :=
  skip ← not_due e game;
  if (skip : bool) then (mret tt : M unit) else close_due_game e game.

Definition run_close_game_agent_task (e : env) : M unit :=
  GameStore.init e;;
  open_games ← GameStore.list_open_games;
  for_each (close_game e) open_games.

Definition possible_durations : list Z := [30; 60; 90; 120; 150; 180].

Definition result_time (minutes : Z) : string :=
  "In " +:+ PyStr.str_of_int minutes +:+ " minutes.".

(** Line 330: the setting counts when it is set and not blank. *)
Definition explicit_duration (game_duration_env : option string) : option string :=
  match game_duration_env with
  | Some s =>
      if negb (String.eqb s "") && negb (String.eqb (PyStr.strip s) "")
      then Some s else None
  | None => None
  end.

(** [int(game_duration_env)] *)
Definition int (s : string) : outcome Z :=
  match PyStr.int_of_str s with
  | Some n => Ok n
  | None => Raise ValueError
  end.

(** Lines 328-340: the announcement with its placeholder filled in, and
    the time at which the game closes. *)
Definition game_deadline (e : env) (tweet_text : string) : M (string * Z) :=
  let game_duration_env := env_getenv e "GAME_DURATION" in
  match explicit_duration game_duration_env with
  | Some s =>
      game_duration ← lift (int s);
      let display_minutes := game_duration / 60 in
      let tweet_text := PyStr.format_result_time tweet_text (result_time display_minutes) in
      t ← now e;
      delta ← lift (Datetime.timedelta_seconds game_duration);
      close_at ← lift (Datetime.add t delta);
      mret (tweet_text, close_at)
  | None =>
      random_minutes ← random_choice e possible_durations;
      let tweet_text := PyStr.format_result_time tweet_text (result_time random_minutes) in
      t ← now e;
      delta ← lift (Datetime.timedelta_minutes random_minutes);
      close_at ← lift (Datetime.add t delta);
      mret (tweet_text, close_at)
  end.

Definition run_create_game_agent_task (e : env) : M unit :=
  '(game_type, tweet_text) ← choose_game e;
  t ← now e;
  logging INFO (MsgCreatingGame game_type t);;
  post_result ← post_tweet e tweet_text;
  if has_key post_result "error" then
    error ← lift (getitem post_result "error");
    logging ERROR (MsgPostError error)
  else
    let tweet_id := dict_get post_result "id" in
    if negb (truthy tweet_id) then logging ERROR MsgNoTweetId
    else
      '(tweet_text, close_at) ← game_deadline e tweet_text;
      logging INFO (MsgGamePosted game_type tweet_id close_at);;
      GameStore.init e;;
      game_id ← uuid4 e;
      GameStore.create_game e game_id tweet_id game_type close_at GameStore.default_status.

Definition run_game_agent_cycle (e : env) : M unit :=
  run_close_game_agent_task e;;
  run_create_game_agent_task e.

End GameAgent.

(** ** Vocabulary of the statements *)

(** [a] occurs in [text]. *)
Definition is_substring (a text : string) : Prop :=
  ∃ before after, text = before +:+ a +:+ after.

Fixpoint all_chars (p : ascii -> bool) (s : string) : bool :=
  match s with
  | EmptyString => true
  | String c r => p c && all_chars p r
  end.

(** What the pattern and the decoding demand of an address. *)
Definition well_formed_address (a : string) : Prop :=
  all_chars Utils.address_char a = true
  ∧ (32 ≤ String.length a ≤ 44)%nat
  ∧ ∃ payload, Base58.b58decode a = Some payload ∧ length payload = 32%nat.

(** What an operation may do to the store. *)
Definition keeps_store {A} (m : M A) : Prop :=
  ∀ w, w_store (snd (m w)) = w_store w.

Definition store_step (R : list dict → list dict → Prop) {A} (m : M A) : Prop :=
  ∀ w, w_store (snd (m w)) = w_store w ∨ R (w_store w) (w_store (snd (m w))).

(** The fields of a closure: the status, and either no winner or a
    verdict, whose record has no author identifier. *)
Definition closure_fields (fields : dict) : Prop :=
  fields !! "status" = Some (VStr "closed")
  ∧ (fields !! "winner_wallet" = Some (VStr "")
     ∨ fields !! "winner_author_id" = Some (VStr "")).

(** One closure of [game] was written. *)
Definition closure_write (game : dict) (s s' : list dict) : Prop :=
  ∃ game_id fields,
    game !! "game_id" = Some game_id
    ∧ closure_fields fields
    ∧ s' = GameStore.set_first_match "game_id" game_id fields s.

(** One open game was added. *)
Definition open_insert (s s' : list dict) : Prop :=
  ∃ doc, s' = s ++ [doc] ∧ doc !! "status" = Some (VStr "open").

Definition entry_keys : gset string := {[ "wallet"; "text"; "reply_id"; "author" ]}.

(** The two operations of the lifecycle. *)
Inductive operation : Type := CloseSweep | CreateGame.

Definition run_operation (e : env) (op : operation) : M unit :=
  match op with
  | CloseSweep => GameAgent.run_close_game_agent_task e
  | CreateGame => GameAgent.run_create_game_agent_task e
  end.


(** The game type that [run_create_game_agent_task] draws in [w], the
    answer of the platform to its announcement, and the world in which
    the deadline is then computed. *)
Definition chosen_game_type (e : env) (w : world) : string :=
  default "" (GameAgent.GAME_TYPES !! (env_random e (w_ticks w) mod 7)%nat).

Definition post_result_of (e : env) (w : world) : dict :=
  env_post_tweet e (S (S (w_ticks w))) (GameAgent.body_of (chosen_game_type e w)).

Definition publish_succeeded (post_result : dict) : bool :=
  negb (has_key post_result "error") && truthy (dict_get post_result "id").

Definition after_publish (e : env) (w : world) : world :=
  MkWorld (w_store w)
    (w_log w ++ [(INFO, MsgCreatingGame (chosen_game_type e w) (env_now e (S (w_ticks w))))])
    (w_calls w ++ [CallPostTweet (GameAgent.body_of (chosen_game_type e w))])
    (S (S (S (w_ticks w)))).

(** The announcement of a game type without its placeholder. *)
Definition body_front (game_type : string) : string :=
  Utils.prefix_of
    (String.length (GameAgent.body_of game_type) - String.length PyStr.field_result_time)
    (GameAgent.body_of game_type).

Definition store_configured (e : env) : Prop :=
  ∃ uri, env_getenv e "COSMOS_MONGO_URI" = Some uri ∧ uri ≠ "".

(** The field [k] of the [i]-th record of the store. *)
Definition stored_field (w : world) (i : nat) (k : string) : option value :=
  w_store w !! i ≫= (fun d : dict => d !! k).

(** ** A scenario: one open game, one reply, a judge *)

Module Scenario.

Definition wrapped_sol : string := "So11111111111111111111111111111111111111112".
Definition system_program : string := "11111111111111111111111111111111".

(** 2025-01-01 00:00:00, and one hour earlier. *)
Definition new_year : Z := 63871286400 * 1000000.
Definition an_hour_before : Z := new_year - 3600 * 1000000.

Definition game : dict :=
  GameStore.game_doc "6f1c2a9e-game" (VStr "1900000000000000001") "best_joke" "open"
    (an_hour_before - 1800 * 1000000) an_hour_before.

Definition closed_game : dict :=
  <["status" := VStr "closed"]>
    (<["winner_wallet" := VStr wrapped_sol]>
       (GameStore.game_doc "0a0b0c0d-game" (VStr "1800000000000000001") "fun_fact" "open"
          0 1000000)).

Definition bob : gmap string atom :=
  {[ "username" := AStr "bob"; "profile_image_url" := AStr "https://pbs.example/bob.png";
     "verified" := ABool false; "name" := AStr "Bob" ]}.

Definition reply : dict :=
  {[ "id" := VStr "1900000000000000002";
     "text" := VStr ("Why did the validator cross the road? " +:+ wrapped_sol);
     "author_id" := VStr "4242";
     "author" := VDict bob ]}.

(** A reply that names two addresses, [wrapped_sol] first. *)
Definition reply_two_addresses : dict :=
  {[ "id" := VStr "1900000000000000003";
     "text" := VStr ("pay " +:+ wrapped_sol +:+ " or else " +:+ system_program);
     "author_id" := VStr "4243";
     "author" := VDict bob ]}.

Definition posted : dict :=
  {[ "id" := VStr "1900000000000000009"; "text" := VStr "announcement";
     "status" := VStr "success" ]}.

Definition refused : dict := {[ "error" := VStr "Twitter API error: 403 Forbidden" ]}.

Definition rate_limited : list dict :=
  [ {[ "error" := VStr "Twitter API error: 429 Too Many Requests" ]} ].

Definition winner_is_bob : judge_outcome :=
  JudgeReturns (MkWinnerResponse (MkWinnerResult wrapped_sol "1900000000000000002")
                  "The validator joke lands best.").

Definition nobody_wins : judge_outcome :=
  JudgeReturns (MkWinnerResponse (MkWinnerResult "" "1900000000000000002")
                  "No entry was funny enough.").

Definition parse_failure : judge_outcome :=
  JudgeRaises (JudgeError "OutputParserException").

Definition make_env (replies : list dict) (judge : judge_outcome)
  (announcement_reply : dict) (first_of_set : nat) (game_duration : option string)
  : env :=
  {| env_now := fun _ => new_year;
     env_random := fun _ => 2%nat;
     env_uuid4 := fun _ => "123e4567-e89b-42d3-a456-426614174000";
     env_getenv := fun k =>
       if String.eqb k "COSMOS_MONGO_URI" then Some "mongodb://games"
       else if String.eqb k "GAME_DURATION" then game_duration
       else None;
     env_set_first := fun _ => first_of_set;
     env_load_chat_model := Ok tt;
     env_post_tweet := fun _ _ => posted;
     env_reply_to_tweet := fun _ _ _ => announcement_reply;
     env_find_answers := fun _ _ => replies;
     env_judge := fun _ _ _ _ => judge |}.

Definition start : world := MkWorld [closed_game; game] [] [] 0.

(** The judge names the reply, the platform accepts the announcement. *)
Definition winner_announced : env :=
  make_env [reply] winner_is_bob posted 0 None.

(** The platform refuses the announcement of the winner. *)
Definition announcement_refused : env :=
  make_env [reply] winner_is_bob refused 0 None.

(** The judge returns an empty wallet. *)
Definition no_impressive_submission : env :=
  make_env [reply] nobody_wins posted 0 None.

(** The answer of the judge does not parse. *)
Definition judge_unparsable : env :=
  make_env [reply] parse_failure posted 0 None.

(** The fetch of the replies is rate limited. *)
Definition fetch_rate_limited : env :=
  make_env rate_limited winner_is_bob posted 0 None.

(** The reply names two addresses, and the interpreter iterates over
    the set of them from the second one added. *)
Definition second_address_first : env :=
  make_env [reply_two_addresses] winner_is_bob posted 1 None.

(** A duration of 5400 seconds is configured. *)
Definition ninety_minutes_configured : env :=
  make_env [reply] winner_is_bob posted 0 (Some "5400").

(** The entry that [reply] contributes. *)
Definition entry : dict :=
  {[ "wallet" := VStr wrapped_sol;
     "text" := VStr ("Why did the validator cross the road? " +:+ wrapped_sol);
     "reply_id" := VStr "1900000000000000002";
     "author" := VDict bob ]}.

(** The record of [game] once closed with the reply as winner. *)
Definition closed_with_winner : dict :=
  <["updated_at" := VTime new_year]>
    (GameAgent.winner_fields (VStr "1900000000000000009")
       (MkWinnerResponse (MkWinnerResult wrapped_sol "1900000000000000002")
          "The validator joke lands best.")
       entry bob) ∪ game.

End Scenario.

(** ** [tools.py]: the calls to the platform that the game agent makes *)

Module Tools.

(** The credentials of [Configuration]. *)
Record Configuration : Type := MkConfiguration {
  twitter_api_key : option string;
  twitter_api_secret : option string;
  twitter_access_token : option string;
  twitter_access_token_secret : option string;
  twitter_bearer_token : option string;
  twitter_user_id : option string
}.

(** Truth value of an optional string: set, and not empty. *)
Definition is_set (o : option string) : bool :=
  match o with
  | Some s => negb (String.eqb s "")
  | None => false
  end.

(** What the body of a [try] does with the client: it returns, or raises
    a [TweepyException], or raises something else; [msg] is the [str] of
    the exception. *)
Inductive api (A : Type) : Type :=
| Returns (a : A)
| RaisesTweepy (msg : string)
| RaisesOther (msg : string).
Arguments Returns {A} a.
Arguments RaisesTweepy {A} msg.
Arguments RaisesOther {A} msg.

(** [str(e)] for a [KeyError]: the key between quotes. *)
Definition str_of_exn (ex : exn) : string :=
  match ex with
  | KeyError k => "'" +:+ k +:+ "'"
  | JudgeError what => what
  | _ => ""
  end.

Definition error_dict (message : string) : dict := {[ "error" := VStr message ]}.

(** The dictionary returned for a tweet that was created. *)
Definition success_dict (tweet_data : dict) : outcome dict :=
  id ← getitem tweet_data "id";
  text ← getitem tweet_data "text";
  mret ({[ "id" := id; "text" := text; "status" := VStr "success" ]} : dict).

(** [response.data] of [create_tweet]: nothing, or a dictionary. *)
Definition data_present (response_data : option dict) : option dict :=
  match response_data with
  | Some d => if bool_decide (d = ∅) then None else Some d
  | None => None
  end.

Definition post_tweet (configuration : Configuration)
  (create_tweet : string -> api (option dict)) (text : string) : dict :=
  if negb (is_set (twitter_api_key configuration)
           && is_set (twitter_api_secret configuration)
           && is_set (twitter_access_token configuration)
           && is_set (twitter_access_token_secret configuration)
           && is_set (twitter_bearer_token configuration))
  then error_dict "Twitter OAuth credentials not configured"
  else
    match create_tweet text with
    | Returns response_data =>
        match data_present response_data with
        | Some tweet_data =>
            match success_dict tweet_data with
            | Ok r => r
            | Raise ex => error_dict ("Failed to post tweet: " +:+ str_of_exn ex)
            end
        | None => error_dict "Failed to post tweet"
        end
    | RaisesTweepy msg => error_dict ("Twitter API error: " +:+ msg)
    | RaisesOther msg => error_dict ("Failed to post tweet: " +:+ msg)
    end.

Definition reply_to_tweet (configuration : Configuration)
  (create_tweet : string -> value -> api (option dict)) (tweet_id : value) (text : string)
  : dict :=
  if negb (is_set (twitter_api_key configuration)
           && is_set (twitter_api_secret configuration)
           && is_set (twitter_access_token configuration)
           && is_set (twitter_access_token_secret configuration))
  then error_dict "Twitter OAuth credentials not configured"
  else
    match create_tweet text tweet_id with
    | Returns response_data =>
        match data_present response_data with
        | Some tweet_data =>
            match success_dict tweet_data with
            | Ok r => r
            | Raise ex => error_dict ("Failed to reply to tweet: " +:+ str_of_exn ex)
            end
        | None => error_dict "Failed to post reply"
        end
    | RaisesTweepy msg => error_dict ("Twitter API error: " +:+ msg)
    | RaisesOther msg => error_dict ("Failed to reply to tweet: " +:+ msg)
    end.

(** A tweet and a user of a search response: the attributes read, and
    the [data] dictionary. *)
Record Tweet : Type := MkTweet {
  tweet_id : value;
  tweet_author_id : value;
  tweet_data : dict
}.

Record User : Type := MkUser {
  user_id : value;
  user_data : gmap string atom
}.

(** [response.data] (nothing, or the tweets) and the users of
    [response.includes], when there are any. *)
Record SearchResponse : Type := MkSearchResponse {
  response_data : option (list Tweet);
  response_users : option (list User)
}.

(** [user_map]: the data of the users by identifier, a later user
    taking the place of an earlier one with the same identifier. *)
Fixpoint user_map_get (users : list User) (author_id : value)
  : option (gmap string atom) :=
  match users with
  | [] => None
  | user :: rest =>
      match user_map_get rest author_id with
      | Some info => Some info
      | None => if bool_decide (user_id user = author_id) then Some (user_data user) else None
      end
  end.

Definition author_of (author_info : gmap string atom) : gmap string atom :=
  {[ "username" := atoms_get_or author_info "username" ANone;
     "profile_image_url" := atoms_get_or author_info "profile_image_url" ANone;
     "verified" := atoms_get_or author_info "verified" ANone;
     "name" := atoms_get_or author_info "name" ANone ]}.

(** Lines 357-369: the loop over the tweets of the response. *)
Fixpoint replies_of (users : list User) (root_id : value) (tweets : list Tweet)
  : list dict :=
  match tweets with
  | [] => []
  | tweet :: rest =>
      if bool_decide (tweet_id tweet = root_id) then replies_of users root_id rest
      else
        let tweet_data :=
          match user_map_get users (tweet_author_id tweet) with
          | Some author_info =>
              if bool_decide (author_info = ∅) then tweet_data tweet
              else <["author" := VDict (author_of author_info)]> (tweet_data tweet)
          | None => tweet_data tweet
          end in
        tweet_data :: replies_of users root_id rest
  end.

Definition find_answers_with_conversation_id (configuration : Configuration)
  (search_recent_tweets : value -> api SearchResponse) (root_id : value) : list dict :=
  if negb (is_set (twitter_bearer_token configuration))
  then [error_dict "Twitter bearer token not configured"]
  else
    match search_recent_tweets root_id with
    | Returns response =>
        match response_data response with
        | None | Some [] => []
        | Some tweets =>
            replies_of (default [] (response_users response)) root_id tweets
        end
    | RaisesTweepy msg => [error_dict ("Twitter API error: " +:+ msg)]
    | RaisesOther msg => [error_dict ("Failed to fetch replies: " +:+ msg)]
    end.

End Tools.

(** ** [tools.py]: the tweets of [search_tweets_mock] *)

Module MockTools.

Definition ascii_letters : string :=
  "abcdefghijklmnopqrstuvwxyzABCDEFGHIJKLMNOPQRSTUVWXYZ".

Definition digits : string := "0123456789".

Definition char_at (population : string) (i : nat) : ascii :=
  default "000"%char (String.get i population).

(** [random.choices(population, k=k)]: [k] draws with replacement,
    [rand i] deciding the [i]-th one. *)
Definition random_choices (rand : nat -> nat) (population : string) (k : nat)
  : list ascii :=
  map (fun i => char_at population (rand i mod String.length population)) (seq 0 k).

(** Lines 516-518. *)
Definition generate_wallet (rand : nat -> nat) : string :=
  "So" +:+ string_of_list_ascii (random_choices rand (ascii_letters +:+ digits) 40).

Definition jokes : list string :=
  [ "Why don't scientists trust atoms? Because they make up everything!";
    "I told my computer I needed a break, and it replied 'Restart me, please.'";
    "Why did the programmer quit his job? He didn't get arrays.";
    "I asked my phone why it was acting up; it said 'It's your fault, code buggy!'";
    "Debugging: Removing the needles from the haystack of bugs." ].

(** Line 536: the text of a fake tweet. *)
Definition tweet_text (joke wallet : string) : string :=
  joke +:+ " #BestJokeChallenge Wallet: " +:+ wallet.

End MockTools.

(** ** [run_scheduler.py]: the check of the environment at startup *)

Module RunScheduler.

Definition required_env_vars : list string :=
  [ "X_API_KEY"; "X_API_SECRET"; "X_ACCESS_TOKEN"; "X_ACCESS_TOKEN_SECRET";
    "X_BEARER_TOKEN"; "X_USER_ID" ].

(** [[var for var in required_env_vars if not os.getenv(var)]] *)
Definition missing_vars (getenv : string -> option string) : list string :=
  List.filter (fun var => negb (Tools.is_set (getenv var))) required_env_vars.

(** The configuration that [main] builds once nothing is missing. *)
Definition configuration_of (getenv : string -> option string) : Tools.Configuration :=
  Tools.MkConfiguration (getenv "X_API_KEY") (getenv "X_API_SECRET")
    (getenv "X_ACCESS_TOKEN") (getenv "X_ACCESS_TOKEN_SECRET")
    (getenv "X_BEARER_TOKEN") (getenv "X_USER_ID").

End RunScheduler.

(** ** [utils.py]: the chat model *)

Module ChatModel.

(** The two clients that [load_chat_model] builds, with the arguments it
    gives them. *)
Inductive chat_model : Type :=
| AzureChatOpenAI (azure_endpoint : string) (azure_deployment api_version : option string)
    (api_key : string)
| ChatOpenAI (model : string) (temperature : Z) (max_retries : Z).

(** [name.split("/", maxsplit=1)], unpacked into two names: the text
    before the first slash and the text after it; without a slash the
    unpacking raises [ValueError]. *)
Fixpoint split_once (name : string) : option (string * string) :=
  match name with
  | EmptyString => None
  | String c rest =>
      if Ascii.eqb c "/" then Some (EmptyString, rest)
      else match split_once rest with
           | Some (provider, model) => Some (String c provider, model)
           | None => None
           end
  end.

(** [provider.lower() == "azure"]: on the letters that can give
    [azure], [lower] is the lower case of ASCII. *)
Definition is_azure (provider : string) : bool :=
  String.eqb (PyStr.map_chars PyStr.lower provider) "azure".

Definition load_chat_model (getenv : string -> option string)
  (fully_specified_name : string) : outcome chat_model :=
  match split_once fully_specified_name with
  | None => Raise ValueError
  | Some (provider, model) =>
      if is_azure provider then
        let azure_key := getenv "AZURE_OPENAI_API_KEY" in
        let azure_endpoint := getenv "AZURE_OPENAI_ENDPOINT" in
        let deployment_name := getenv "AZURE_OPENAI_DEPLOYMENT_NAME" in
        let api_version := getenv "AZURE_OPENAI_API_VERSION" in
        match azure_key, azure_endpoint with
        | Some key, Some endpoint =>
            if negb (String.eqb key "") && negb (String.eqb endpoint "")
            then Ok (AzureChatOpenAI endpoint deployment_name api_version key)
            else Raise ValueError
        | _, _ => Raise ValueError
        end
      else Ok (ChatOpenAI "gpt-4o" 0 2)
  end.

End ChatModel.

(** ** More vocabulary *)

(** The fields that a closure writes. *)
Definition closure_keys : gset string :=
  {[ "status"; "winner_tweet_id"; "winner_wallet"; "chain_of_thought";
     "winning_tweet_text"; "winner_username"; "winner_name"; "winner_image_url";
     "winner_author_id"; "winner_is_verified"; "updated_at" ]}.

(** One closure of [game] was written, with fields among [closure_keys]. *)
Definition closure_update (game : dict) (s s' : list dict) : Prop :=
  ∃ game_id fields,
    game !! "game_id" = Some game_id
    ∧ fields !! "status" = Some (VStr "closed")
    ∧ dom fields ⊆ closure_keys
    ∧ s' = GameStore.set_first_match "game_id" game_id fields s.

(** What may become of a record: the fields outside [closure_keys] stay,
    and the record is as before or closed. *)
Definition record_evolves (d d' : dict) : Prop :=
  (∀ k, k ∉ closure_keys → d' !! k = d !! k)
  ∧ (d' = d ∨ d' !! "status" = Some (VStr "closed")).

(** The fields of a closure without winner (lines 192-198). *)
Definition no_winner_fields (post_announcement : dict) : dict :=
  {[ "status" := VStr "closed";
     "winner_tweet_id" := dict_get_or post_announcement "id" (VStr "");
     "winner_wallet" := VStr "";
     "chain_of_thought" := VStr "";
     "winning_tweet_text" := VStr "" ]}.

(** The fields written by a closure without winner that starts in [w]:
    the platform answers the announcement after the clock and the fetch,
    and the clock is read once more for [updated_at]. *)
Definition no_winner_closure (e : env) (w : world) (tweet_id : value)
  (announcement : string) : dict :=
  <["updated_at" := VTime (env_now e (S (S (S (w_ticks w)))))]>
    (no_winner_fields (env_reply_to_tweet e (S (S (w_ticks w))) tweet_id announcement)).


(** An operation leaves a component of the world as it is. *)
Definition keeps {X A} (component : world → X) (m : M A) : Prop :=
  ∀ w, component (snd (m w)) = component w.

(** The games that [list_open_games] returns in [w]. *)
Definition open_games_of (w : world) : list dict :=
  filter (fun d => GameStore.matches "status" (VStr "open") d = true) (w_store w).

(** The first [n] characters of [s] belong to the class of the pattern. *)
Definition class_run (n : nat) (s : string) : Prop :=
  String.length (Utils.take_class n s) = n.

(** A name without slash. *)
Definition no_slash (s : string) : bool :=
  all_chars (fun c => negb (Ascii.eqb c "/")) s.

(** No position of [p] starts a run of 32 class characters, and every
    run of [p] ends inside [p]: the search finds nothing in [p], whatever
    follows. *)
Fixpoint no_candidate (p : string) : bool :=
  match p with
  | EmptyString => true
  | String _ r =>
      (String.length (Utils.take_class Utils.max_len p)
         <? Nat.min Utils.min_len (String.length p))%nat
      && no_candidate r
  end.

(** ** The scenario with a second open game *)

Module Scenario2.

Import Scenario.

Definition second_game : dict :=
  GameStore.game_doc "7a2d3b0f-game" (VStr "1900000000000000101") "fun_fact" "open"
    (an_hour_before - 1800 * 1000000) an_hour_before.

(** A game that closes an hour after [new_year]. *)
Definition later_game : dict :=
  GameStore.game_doc "8b3e4c1a-game" (VStr "1900000000000000201") "emoji_story" "open"
    an_hour_before (new_year + 3600 * 1000000).

Definition two_open : world := MkWorld [game; second_game] [] [] 0.

(** Nobody replied. *)
Definition no_replies : env := make_env [] winner_is_bob posted 0 None.

(** A reply without address. *)
Definition reply_without_address : dict :=
  {[ "id" := VStr "1900000000000000004";
     "text" := VStr "I have no wallet, only jokes";
     "author_id" := VStr "4244" ]}.

Definition no_address : env := make_env [reply_without_address] winner_is_bob posted 0 None.

(** The judge names a reply that is not there. *)
Definition unknown_reply_named : judge_outcome :=
  JudgeReturns (MkWinnerResponse (MkWinnerResult system_program "no-such-reply")
                  "Picked at random.").

(** The setting of the duration is not a number. *)
Definition duration_not_a_number : env :=
  make_env [reply] winner_is_bob posted 0 (Some "soon").


(** No variable of the environment is set: the platform answers, the
    store is not configured. *)
Definition store_not_configured : env :=
  {| env_now := fun _ => new_year;
     env_random := fun _ => 2%nat;
     env_uuid4 := fun _ => "123e4567-e89b-42d3-a456-426614174000";
     env_getenv := fun _ => None;
     env_set_first := fun _ => 0%nat;
     env_load_chat_model := Ok tt;
     env_post_tweet := fun _ _ => posted;
     env_reply_to_tweet := fun _ _ _ => posted;
     env_find_answers := fun _ _ => [reply];
     env_judge := fun _ _ _ _ => winner_is_bob |}.

Definition credentials : Tools.Configuration :=
  Tools.MkConfiguration (Some "key") (Some "secret") (Some "token") (Some "token-secret")
    (Some "bearer") (Some "42").

Definition no_bearer_token : Tools.Configuration :=
  Tools.MkConfiguration (Some "key") (Some "secret") (Some "token") (Some "token-secret")
    None (Some "42").

End Scenario2.

(** * Properties *)

(** ** Address extraction *)

Section Extraction.

Import Utils.

Lemma append_cons (x : ascii) (a b : string) : String x a +:+ b = String x (a +:+ b).
Proof. reflexivity. Qed.

Lemma append_assoc (a b c : string) : (a +:+ b) +:+ c = a +:+ b +:+ c.
Proof. induction a as [|x a IH]; [done | by rewrite !append_cons, IH]. Qed.

Lemma append_empty_r (a : string) : a +:+ "" = a.
Proof. induction a as [|x a IH]; [done | by rewrite append_cons, IH]. Qed.

Lemma prefix_of_drop (k : nat) (s : string) : s = prefix_of k s +:+ drop k s.
Proof.
  revert s; induction k as [|k IH]; intros [|c r]; simpl; try done.
  by rewrite append_cons, <- IH.
Qed.

Lemma take_class_length (n : nat) (s : string) :
  (String.length (take_class n s) ≤ n)%nat.
Proof.
  revert s; induction n as [|n IH]; intros [|c r]; simpl; try lia.
  destruct (address_char c); simpl; [specialize (IH r) | ]; lia.
Qed.

Lemma prefix_of_class (k n : nat) (s : string) :
  (k ≤ String.length (take_class n s))%nat →
  String.length (prefix_of k s) = k ∧ all_chars address_char (prefix_of k s) = true.
Proof.
  revert n s; induction k as [|k IH]; intros n s Hk.
  - by destruct s.
  - destruct n as [|n], s as [|c r]; simpl in Hk; try lia.
    destruct (address_char c) eqn:Hc; simpl in Hk; [|lia].
    destruct (IH n r) as [Hlen Hall]; [lia|].
    simpl. rewrite Hlen, Hc, Hall. done.
Qed.

Lemma backtrack_prefix (tries k : nat) (before : option ascii) (s m : string) :
  backtrack tries k before s = Some m →
  ∃ k', (k' ≤ k ∧ k + 1 ≤ k' + tries)%nat ∧ m = prefix_of k' s.
Proof.
  revert k; induction tries as [|t IH]; intros k; simpl; [done|].
  destruct (word_boundary _ _).
  - intros [= <-]. exists k. split; [lia | done].
  - destruct k as [|k']; [done|]. intros H.
    destruct (IH _ H) as (j & Hj & ->). exists j. split; [lia | done].
Qed.

(** A match is a run of 32 to 44 characters of the class, at the front
    of what is left of the text. *)
Lemma match_here_sound (before : option ascii) (s m : string) :
  match_here before s = Some m →
  (∃ rest, s = m +:+ rest)
  ∧ all_chars address_char m = true
  ∧ (32 ≤ String.length m ≤ 44)%nat.
Proof.
  unfold match_here. destruct (word_boundary before _); [|done].
  destruct (min_len <=? _)%nat eqn:Hmin; [|done].
  apply Nat.leb_le in Hmin. intros H.
  destruct (backtrack_prefix _ _ _ _ _ H) as (k & Hk & ->).
  pose proof (take_class_length max_len s) as Hmax.
  unfold min_len, max_len in *.
  destruct (prefix_of_class k 44 s) as [Hlen Hall]; [lia|].
  split; [exists (drop k s); apply prefix_of_drop|].
  split; [done | lia].
Qed.

Lemma findall_from_sound (s : string) :
  ∀ skip before m, m ∈ findall_from skip before s →
    is_substring m s
    ∧ all_chars address_char m = true
    ∧ (32 ≤ String.length m ≤ 44)%nat.
Proof.
  induction s as [|c r IH]; intros skip before m; simpl.
  - by intros ?%elem_of_nil.
  - assert (Hrest : ∀ skip' before', m ∈ findall_from skip' before' r →
              is_substring m (String c r)
              ∧ all_chars address_char m = true
              ∧ (32 ≤ String.length m ≤ 44)%nat).
    { intros skip' before' Hin.
      destruct (IH _ _ _ Hin) as ((pre & post & ->) & Hall & Hlen).
      split; [|done]. by exists (String c pre), post. }
    destruct skip as [|k]; [|by apply Hrest].
    destruct (match_here before (String c r)) as [m0|] eqn:Hm; [|by apply Hrest].
    intros [->|Hin]%elem_of_cons; [|by eapply Hrest].
    destruct (match_here_sound _ _ _ Hm) as ((rest & Hs) & Hall & Hlen).
    split; [|done]. exists "", rest. by rewrite Hs.
Qed.

Lemma set_add_NoDup (x : string) (s : pyset) : NoDup s → NoDup (set_add x s).
Proof.
  intros Hs. unfold set_add. case_decide; [done|].
  apply NoDup_app. split; [done|]. split; [|apply NoDup_singleton].
  intros y Hy ->%list_elem_of_singleton. done.
Qed.

Lemma elem_of_set_add (x y : string) (s : pyset) : y ∈ set_add x s ↔ y = x ∨ y ∈ s.
Proof.
  unfold set_add. case_decide.
  - split; [by right | by intros [->|?]].
  - rewrite elem_of_app, list_elem_of_singleton. tauto.
Qed.

Lemma collect_addresses (candidates : list string) :
  ∀ acc, NoDup acc →
    let r := fold_left
               (fun valid_addresses candidate =>
                  if is_address candidate then set_add candidate valid_addresses
                  else valid_addresses) candidates acc in
    NoDup r ∧ ∀ a, a ∈ r ↔ a ∈ acc ∨ (a ∈ candidates ∧ is_address a = true).
Proof.
  induction candidates as [|c l IH]; intros acc Hacc; simpl.
  - split; [done|]. intros a. rewrite elem_of_nil. tauto.
  - destruct (is_address c) eqn:Hc.
    + destruct (IH (set_add c acc) (set_add_NoDup _ _ Hacc)) as [Hnd Hin].
      split; [done|]. intros a. rewrite Hin, elem_of_set_add, elem_of_cons.
      split; [intros [[->|?]|[? ?]]; auto | intros [?|[[->|?] ?]]; auto].
    + destruct (IH acc Hacc) as [Hnd Hin].
      split; [done|]. intros a. rewrite Hin, elem_of_cons.
      split; [intros [?|[? ?]]; auto | intros [?|[[->|?] ?]]; auto; congruence].
Qed.

(** The addresses of a text are exactly the matches of the pattern that
    decode to 32 bytes, each once. *)
Lemma extract_solana_addresses_spec (text : string) :
  NoDup (extract_solana_addresses text)
  ∧ ∀ a, a ∈ extract_solana_addresses text ↔ a ∈ findall text ∧ is_address a = true.
Proof.
  destruct (collect_addresses (findall text) [] (NoDup_nil_2)) as [Hnd Hin].
  split; [exact Hnd|]. intros a. unfold extract_solana_addresses.
  rewrite Hin, elem_of_nil. tauto.
Qed.

Lemma is_address_payload (a : string) :
  is_address a = true →
  ∃ payload, Base58.b58decode a = Some payload ∧ length payload = 32%nat.
Proof.
  unfold is_address. destruct (Base58.b58decode a) as [p|]; [|done].
  intros H%Nat.eqb_eq. by exists p.
Qed.

(** The class of the pattern is the alphabet of the encoding. *)
Lemma address_char_alphabet (c : ascii) :
  address_char c = true ↔ is_Some (Base58.digit c).
Proof.
  destruct c as [[] [] [] [] [] [] [] []]; vm_compute;
    split; intros H; try done; try (by eexists); by destruct H.
Qed.

(** C9. For every text, [extract_solana_addresses] returns a collection
    without repetition, each element of which occurs in the text, is made
    of 32 to 44 characters of the base58 alphabet, and decodes to exactly
    32 bytes.  The function takes the text and nothing else, and returns
    the collection and nothing else. *)
Theorem extract_solana_addresses_sound (text : string) :
  NoDup (extract_solana_addresses text)
  ∧ ∀ a, a ∈ extract_solana_addresses text →
      is_substring a text ∧ well_formed_address a.
Proof.
  destruct (extract_solana_addresses_spec text) as [Hnd Hin].
  split; [exact Hnd|]. intros a [Hfind Haddr]%Hin.
  destruct (findall_from_sound _ _ _ _ Hfind) as (Hsub & Hall & Hlen).
  split; [exact Hsub|]. split; [exact Hall|]. split; [exact Hlen|].
  by apply is_address_payload.
Qed.

End Extraction.

(** ** What the operations may do to the store *)

Section Frames.

Context {A B : Type}.

Lemma keeps_ret (a : A) : keeps_store (mret a : M A).
Proof. by intros w. Qed.

Lemma keeps_lift (o : outcome A) : keeps_store (lift o).
Proof. by intros w. Qed.

Lemma keeps_bind (m : M A) (f : A → M B) :
  keeps_store m → (∀ a, keeps_store (f a)) → keeps_store (m ≫= f).
Proof.
  intros Hm Hf w. specialize (Hm w). unfold mbind, M_bind.
  destruct (m w) as [[a|ex] w1]; simpl in *; [|done].
  by rewrite Hf.
Qed.

Lemma keeps_try_except (body : M A) (handler : exn → M A) :
  keeps_store body → (∀ ex, keeps_store (handler ex)) →
  keeps_store (try_except body handler).
Proof.
  intros Hb Hh w. specialize (Hb w). unfold try_except.
  destruct (body w) as [[a|ex] w1]; simpl in *; [done|].
  by rewrite Hh.
Qed.

Variable R : list dict → list dict → Prop.

Lemma step_keeps (m : M A) : keeps_store m → store_step R m.
Proof. intros Hm w. by left. Qed.

(** A step after operations that keep the store. *)
Lemma step_bind (m : M A) (f : A → M B) :
  keeps_store m → (∀ a, store_step R (f a)) → store_step R (m ≫= f).
Proof.
  intros Hm Hf w. specialize (Hm w). unfold mbind, M_bind.
  destruct (m w) as [[a|ex] w1]; simpl in *; [|by left].
  rewrite <- Hm. apply Hf.
Qed.

(** The same, the value being known. *)
Lemma step_bind_lift (o : outcome A) (f : A → M B) :
  (∀ a, o = Ok a → store_step R (f a)) → store_step R (lift o ≫= f).
Proof.
  intros Hf w. unfold mbind, M_bind, lift.
  destruct o as [a|ex]; [by apply Hf | by left].
Qed.

(** A step before operations that keep the store. *)
Lemma step_then_keeps (m : M A) (f : A → M B) :
  store_step R m → (∀ a, keeps_store (f a)) → store_step R (m ≫= f).
Proof.
  intros Hm Hf w. specialize (Hm w). unfold mbind, M_bind.
  destruct (m w) as [[a|ex] w1]; simpl in *; [|done].
  by rewrite Hf.
Qed.

End Frames.

Section Primitives.

Variable e : env.

Lemma keeps_logging lvl msg : keeps_store (logging lvl msg).
Proof. by intros w. Qed.

Lemma keeps_now : keeps_store (now e).
Proof. by intros w. Qed.

Lemma keeps_uuid4 : keeps_store (uuid4 e).
Proof. by intros w. Qed.

Lemma keeps_random_choice {A} (l : list A) : keeps_store (random_choice e l).
Proof. by intros w. Qed.

Lemma keeps_post_tweet text : keeps_store (post_tweet e text).
Proof. by intros w. Qed.

Lemma keeps_reply_to_tweet tweet_id text : keeps_store (reply_to_tweet e tweet_id text).
Proof. by intros w. Qed.

Lemma keeps_find_answers tweet_id :
  keeps_store (find_answers_with_conversation_id e tweet_id).
Proof. by intros w. Qed.

Lemma keeps_ainvoke game_type instructions entries :
  keeps_store (ainvoke e game_type instructions entries).
Proof. by intros w. Qed.

Lemma keeps_init : keeps_store (GameStore.init e).
Proof. intros w. unfold GameStore.init. by repeat case_match. Qed.

Lemma keeps_find k v : keeps_store (GameStore.find k v).
Proof. by intros w. Qed.

End Primitives.

Create HintDb frames.

#[local] Hint Resolve keeps_ret keeps_lift keeps_logging keeps_now keeps_uuid4
  keeps_random_choice keeps_post_tweet keeps_reply_to_tweet keeps_find_answers
  keeps_ainvoke keeps_init keeps_find : frames.

(** Goes through a program that never writes to the store. *)
Ltac frames :=
  repeat first
    [ progress eauto with frames
    | apply keeps_bind; [| intros ?]
    | apply keeps_try_except; [| intros ?]
    | match goal with
      | |- keeps_store (if ?b then _ else _) => destruct b
      | |- keeps_store (match ?x with _ => _ end) => destruct x
      end ].

Section CloseStep.

Import GameAgent.

Variable e : env.

Lemma keeps_select_winner_llm game_type entries :
  keeps_store (select_winner_llm e game_type entries).
Proof. unfold select_winner_llm. frames. Qed.

Lemma keeps_not_due game : keeps_store (not_due e game).
Proof. unfold not_due. frames. Qed.

Lemma getitem_Ok (d : dict) (k : string) (v : value) : getitem d k = Ok v → d !! k = Some v.
Proof. unfold getitem. by destruct (d !! k); intros; simplify_eq. Qed.

Lemma closure_fields_updated_at fields t :
  closure_fields fields → closure_fields (<["updated_at" := VTime t]> fields).
Proof.
  intros [Hs Hw]. split.
  - by rewrite lookup_insert_ne.
  - destruct Hw; [left|right]; by rewrite lookup_insert_ne.
Qed.

Lemma step_update_game game game_id fields :
  game !! "game_id" = Some game_id → closure_fields fields →
  store_step (closure_write game) (GameStore.update_game e game_id fields).
Proof.
  intros Hg Hf w. right.
  exists game_id, (<["updated_at" := VTime (env_now e (w_ticks w))]> fields).
  split; [done|]. split; [by apply closure_fields_updated_at | done].
Qed.

Lemma step_close_game_no_winner game post_announcement :
  store_step (closure_write game) (close_game_no_winner e game post_announcement).
Proof.
  unfold close_game_no_winner. apply step_bind_lift. intros game_id Hg%getitem_Ok.
  apply step_update_game; [done|]. split; [done | by left].
Qed.

(** The entries are built with four keys. *)
Lemma entry_of_reply_keys reply entry :
  entry_of_reply e reply = Ok (Some entry) → dom entry = entry_keys.
Proof.
  unfold entry_of_reply, mbind, outcome_bind.
  destruct (as_str _) as [content|]; [|done].
  destruct (Utils.extract_solana_addresses content); [done|].
  destruct (set_first _ _); [|done]. intros [= <-].
  rewrite !dom_insert_L, dom_singleton_L. unfold entry_keys. set_solver.
Qed.

Lemma valid_entries_keys replies entries :
  valid_entries_of e replies = Ok entries →
  Forall (fun entry : dict => dom entry = entry_keys) entries.
Proof.
  revert entries; induction replies as [|r l IH]; intros entries; simpl.
  - by intros [= <-].
  - unfold mbind, outcome_bind. destruct (entry_of_reply e r) as [o|] eqn:Ho; [|done].
    destruct (valid_entries_of e l) as [rest|]; [|done].
    intros [= <-]. specialize (IH _ eq_refl).
    destruct o as [entry|]; [|done]. constructor; [|done].
    by eapply entry_of_reply_keys.
Qed.

(** The winning entry is one of the entries, or the empty dictionary. *)
Lemma winning_entry_keys rid entries entry :
  Forall (fun entry : dict => dom entry = entry_keys) entries →
  winning_entry_of rid entries = Ok entry →
  dom entry = entry_keys ∨ entry = ∅.
Proof.
  induction 1 as [|x l Hx Hl IH]; simpl.
  - intros [= <-]. by right.
  - unfold mbind, outcome_bind. destruct (getitem x "reply_id") as [v|]; [|done].
    destruct (equals_str v rid); [intros [= <-]; by left | done].
Qed.

Lemma winning_entry_author_id rid entries entry :
  Forall (fun entry : dict => dom entry = entry_keys) entries →
  winning_entry_of rid entries = Ok entry →
  dict_get_or entry "author_id" (VStr "") = VStr "".
Proof.
  intros Hkeys Hentry. unfold dict_get_or.
  destruct (winning_entry_keys _ _ _ Hkeys Hentry) as [Hdom| ->]; [|done].
  assert (entry !! "author_id" = None) as ->; [|done].
  apply not_elem_of_dom. rewrite Hdom. unfold entry_keys.
  rewrite !elem_of_union, !elem_of_singleton. intros [[[?|?]|?]|?]; discriminate.
Qed.

Lemma step_announce_and_close game game_id entries winner :
  game !! "game_id" = Some game_id →
  Forall (fun entry : dict => dom entry = entry_keys) entries →
  store_step (closure_write game) (announce_and_close e game game_id entries winner).
Proof.
  intros Hg Hentries. unfold announce_and_close.
  apply step_bind_lift; intros response _.
  apply step_bind_lift; intros tweet_id _.
  apply step_bind; [frames|]. intros post.
  destruct (has_key post "error").
  { apply step_keeps. frames. }
  apply step_bind_lift; intros entry Hentry.
  apply step_bind_lift; intros author _.
  apply step_then_keeps; [|frames].
  apply step_update_game; [done|]. split; [done|]. right.
  unfold winner_fields.
  by rewrite (winning_entry_author_id _ _ _ Hentries Hentry).
Qed.

Lemma step_close_due_game game :
  store_step (closure_write game) (close_due_game e game).
Proof.
  unfold close_due_game.
  apply step_bind_lift; intros game_id Hg%getitem_Ok.
  apply step_bind; [frames|]. intros _.
  apply step_bind_lift; intros tweet_id _.
  apply step_bind; [frames|]. intros replies.
  destruct (fetch_error replies).
  { apply step_keeps. frames. }
  destruct replies as [|r0 rs].
  { apply step_bind; [frames|]. intros _.
    apply step_bind; [frames|]. intros post.
    apply step_close_game_no_winner. }
  apply step_bind; [frames|]. intros _.
  apply step_bind_lift; intros entries Hentries.
  destruct entries as [|e0 es].
  { apply step_bind; [frames|]. intros _.
    apply step_bind; [frames|]. intros post.
    apply step_close_game_no_winner. }
  apply step_bind_lift; intros game_type _.
  apply step_bind; [apply keeps_select_winner_llm|]. intros winner.
  apply step_bind; [frames|]. intros _.
  apply step_announce_and_close; [done|].
  by eapply valid_entries_keys.
Qed.

(** The closure of one game leaves the store as it is, or writes one
    closure of that game. *)
Lemma step_close_game game : store_step (closure_write game) (close_game e game).
Proof.
  unfold close_game. apply step_bind; [apply keeps_not_due|]. intros [|].
  - apply step_keeps. frames.
  - apply step_close_due_game.
Qed.

End CloseStep.

(** ** The close sweep *)

Section CloseSweep.

Import GameAgent.

Variable e : env.

Lemma matches_status_open (g : dict) :
  GameStore.matches "status" (VStr "open") g = true → g !! "status" = Some (VStr "open").
Proof.
  unfold GameStore.matches. destruct (g !! "status") as [v|].
  - by intros ->%bool_decide_eq_true.
  - by intros ?%bool_decide_eq_true.
Qed.

Lemma set_first_match_other k v fields (s : list dict) (i : nat) (d : dict) :
  GameStore.matches k v d = false →
  s !! i = Some d → GameStore.set_first_match k v fields s !! i = Some d.
Proof.
  intros Hd. revert i; induction s as [|x s IH]; intros i; simpl; [done|].
  destruct (GameStore.matches k v x) eqn:Hx.
  - destruct i as [|i]; simpl; [|done]. intros [= ->]. congruence.
  - destruct i as [|i]; simpl; [done | apply IH].
Qed.

Lemma set_first_match_lookup k v fields (s : list dict) (i : nat) (d d' : dict) :
  s !! i = Some d → GameStore.set_first_match k v fields s !! i = Some d' →
  d' = d ∨ d' = fields ∪ d.
Proof.
  revert i; induction s as [|x s IH]; intros i; simpl; [done|].
  destruct (GameStore.matches k v x).
  - destruct i as [|i]; simpl.
    + intros [= ->] [= <-]. by right.
    + intros -> [= <-]. by left.
  - destruct i as [|i]; simpl.
    + intros [= ->] [= <-]. by left.
    + apply IH.
Qed.

Lemma for_each_invariant {A} (P : world → Prop) (body : A → M unit) (l : list A) :
  (∀ x, x ∈ l → ∀ w, P w → P (snd (body x w))) →
  ∀ w, P w → P (snd (for_each body l w)).
Proof.
  induction l as [|x l IH]; intros Hbody w Hw; simpl; [done|].
  unfold mbind, M_bind.
  pose proof (Hbody x (list_elem_of_here _ _) w Hw) as Hx.
  destruct (body x w) as [[[]|ex] w1]; simpl in *; [|done].
  apply IH; [|done]. intros y Hy. apply Hbody. by apply list_elem_of_further.
Qed.

Lemma init_world (w : world) : snd (GameStore.init e w) = w.
Proof. unfold GameStore.init. by repeat case_match. Qed.

(** A closure written for a game with another identifier leaves the
    record where it is. *)
Lemma closure_write_other (game d : dict) (game_id : value) (s s' : list dict) (i : nat) :
  d !! "game_id" = Some game_id → game !! "game_id" ≠ Some game_id →
  closure_write game s s' → s !! i = Some d → s' !! i = Some d.
Proof.
  intros Hd Hg (gid & fields & Hgid & _ & ->). apply set_first_match_other.
  unfold GameStore.matches. rewrite Hd. apply bool_decide_eq_false. congruence.
Qed.

Lemma keeps_game_deadline text : keeps_store (game_deadline e text).
Proof. unfold game_deadline. frames. Qed.

Lemma keeps_choose_game : keeps_store (choose_game e).
Proof. unfold choose_game. frames. Qed.

Lemma step_create_game game_id tweet_id game_type close_at :
  store_step open_insert
    (GameStore.create_game e game_id tweet_id game_type close_at GameStore.default_status).
Proof. intros w. right. eexists. split; [reflexivity | done]. Qed.

(** The creation of a game leaves the store as it is, or adds one open
    game. *)
Lemma step_run_create_game_agent_task :
  store_step open_insert (run_create_game_agent_task e).
Proof.
  unfold run_create_game_agent_task.
  apply step_bind; [apply keeps_choose_game|]. intros [game_type tweet_text].
  apply step_bind; [frames|]. intros t.
  apply step_bind; [frames|]. intros _.
  apply step_bind; [frames|]. intros post_result.
  destruct (has_key post_result "error").
  { apply step_keeps. frames. }
  destruct (negb _).
  { apply step_keeps. frames. }
  apply step_bind; [apply keeps_game_deadline|]. intros [text close_at].
  apply step_bind; [frames|]. intros _.
  apply step_bind; [frames|]. intros _.
  apply step_bind; [frames|]. intros game_id.
  apply step_create_game.
Qed.

(** C3. When the fetch of the replies of a due game answers with an
    error, the closure of that game returns without raising, having
    written nothing to the store (the record stays as it was, open),
    having called the platform for the fetch only (no announcement), and
    having logged the error; an error that mentions 429 and any other
    error differ in that log record alone. *)
Theorem close_game_fetch_error (game : dict) (w : world)
    (game_id tweet_id : value) (close_at : Z) (first : dict) (rest : list dict)
    (error_message : string) :
  game !! "game_id" = Some game_id →
  game !! "tweet_id" = Some tweet_id →
  game !! "close_at" = Some (VTime close_at) →
  close_at ≤ env_now e (w_ticks w) →
  env_find_answers e (S (w_ticks w)) tweet_id = first :: rest →
  first !! "error" = Some (VStr error_message) →
  error_message ≠ "" →
  close_game e game w =
    (Ok tt,
     MkWorld (w_store w)
       (w_log w ++
          [ (INFO, MsgProcessingClosure game_id);
            (ERROR, if PyStr.contains "429" error_message
                    then MsgRateLimit game_id (VStr error_message)
                    else MsgFetchError game_id (VStr error_message)) ])
       (w_calls w ++ [CallFindAnswers tweet_id])
       (S (S (w_ticks w)))).
Proof.
  intros Hgid Htid Hclose Hdue Hfetch Herr Hmsg.
  unfold close_game, not_due, close_due_game, dict_get.
  rewrite Hclose. simpl.
  unfold mbind, M_bind, now, lift, Datetime.lt. simpl.
  replace (env_now e (w_ticks w) <? close_at) with false
    by (symmetry; apply Z.ltb_ge; lia).
  unfold getitem. rewrite Hgid, Htid. simpl.
  rewrite Hfetch. unfold fetch_error, dict_get. rewrite Herr. simpl.
  destruct (String.eqb_spec error_message ""); [done|]. simpl.
  unfold logging, record_call.
  destruct (PyStr.contains "429" error_message); simpl; by rewrite <- app_assoc.
Qed.

(** C4. A record whose status is closed is left as it is by the close
    sweep and by the creation of a game, the two operations there are:
    its status is not set back and its winner fields are not rewritten.
    The identifier of the game is its own: no open game of the store
    carries it. *)
Theorem closed_game_is_left_unchanged (op : operation) (w : world) (i : nat)
    (d : dict) (game_id : value) :
  w_store w !! i = Some d →
  d !! "status" = Some (VStr "closed") →
  d !! "game_id" = Some game_id →
  (∀ g, g ∈ w_store w → g !! "status" = Some (VStr "open") →
        g !! "game_id" ≠ Some game_id) →
  w_store (snd (run_operation e op w)) !! i = Some d.
Proof.
  intros Hi Hclosed Hd Hunique. destruct op; simpl.
  - unfold run_close_game_agent_task, mbind, M_bind.
    pose proof (init_world w) as Hinit.
    destruct (GameStore.init e w) as [[[]|ex] w1]; simpl in Hinit; subst w1; [|done].
    unfold GameStore.list_open_games, GameStore.find.
    apply (for_each_invariant (fun w => w_store w !! i = Some d)); [|done].
    intros g [Hopen%matches_status_open Hg]%list_elem_of_filter w1 Hw1.
    destruct (step_close_game e g w1) as [->|Hwrite]; [done|].
    eapply closure_write_other; eauto.
  - destruct (step_run_create_game_agent_task w) as [->|(doc & -> & _)]; [done|].
    by apply lookup_app_l_Some.
Qed.

(** C10. Whenever the closure of a game changes a record and leaves in
    it a winner wallet that is not empty, the author identifier of the
    winner in that record is the empty string: the entries are built
    with the keys wallet, text, reply_id and author only
    ([valid_entries_keys]), so the key author_id that the closure reads
    from the winning entry is never there. *)
Theorem winner_author_id_is_empty (game : dict) (w : world) (i : nat)
    (d d' : dict) (winner_wallet : string) :
  w_store w !! i = Some d →
  w_store (snd (close_game e game w)) !! i = Some d' →
  d' ≠ d →
  d' !! "winner_wallet" = Some (VStr winner_wallet) →
  winner_wallet ≠ "" →
  d' !! "winner_author_id" = Some (VStr "").
Proof.
  intros Hd Hd' Hchanged Hwallet Hnonempty.
  destruct (step_close_game e game w) as [Hsame|(gid & fields & _ & [_ Hfields] & Hs)].
  { rewrite Hsame in Hd'. congruence. }
  rewrite Hs in Hd'.
  destruct (set_first_match_lookup _ _ _ _ _ _ _ Hd Hd') as [->| ->]; [done|].
  destruct Hfields as [Hnone|Hauthor].
  - rewrite (lookup_union_Some_l _ _ _ _ Hnone) in Hwallet. congruence.
  - by apply lookup_union_Some_l.
Qed.

End CloseSweep.

(** ** The final step of a closure *)

Section FinalStep.

Import GameAgent.

Variable e : env.

(** C1, as amended.  At the final step an error of the call that posts
    the announcement is logged and blocks the closure: nothing is written
    to the store, so the record of the game stays open. *)
Theorem announcement_error_blocks_closure (game : dict) (game_id : value)
    (valid_entries : list dict) (response : WinnerResponse) (w : world)
    (tweet_id error : value) :
  game !! "tweet_id" = Some tweet_id →
  env_reply_to_tweet e (w_ticks w) tweet_id (closing_announcement response) !! "error"
    = Some error →
  announce_and_close e game game_id valid_entries (Structured response) w =
    (Ok tt,
     MkWorld (w_store w)
       (w_log w ++ [(ERROR, MsgAnnouncementError game_id error)])
       (w_calls w ++ [CallReplyToTweet tweet_id (closing_announcement response)])
       (S (w_ticks w))).
Proof.
  intros Htid Herr.
  unfold announce_and_close, mbind, M_bind, lift, getitem. simpl.
  rewrite Htid. simpl. unfold has_key.
  rewrite bool_decide_eq_true_2 by (rewrite Herr; eauto).
  by rewrite Herr.
Qed.

(** C7, as amended.  When the wallet of the verdict is empty once the
    white space around it is removed, the announcement posted is the one
    of no impressive submission; when the platform accepts it, the record
    is closed with the wallet of the verdict as it came, the rationale of
    the verdict as chain of thought, and the text and author fields of
    the entry that the verdict names (empty ones when it names none). *)
Theorem no_impressive_submission_closure (game : dict) (game_id : value)
    (valid_entries : list dict) (response : WinnerResponse) (w : world)
    (tweet_id : value) (winning_entry : dict) (author : gmap string atom) :
  PyStr.strip (wallet (result response)) = "" →
  game !! "tweet_id" = Some tweet_id →
  env_reply_to_tweet e (w_ticks w) tweet_id announcement_no_impressive !! "error" = None →
  winning_entry_of (reply_id (result response)) valid_entries = Ok winning_entry →
  as_dict (dict_get_or winning_entry "author" (VDict ∅)) = Ok author →
  ∃ fields : dict,
    announce_and_close e game game_id valid_entries (Structured response) w =
      (Ok tt,
       MkWorld (GameStore.set_first_match "game_id" game_id fields (w_store w))
         (w_log w ++ [(INFO, MsgGameUpdated game_id fields); (INFO, MsgWinnerStored game_id)])
         (w_calls w ++ [CallReplyToTweet tweet_id announcement_no_impressive])
         (S (S (w_ticks w))))
    ∧ fields !! "status" = Some (VStr "closed")
    ∧ fields !! "winner_wallet" = Some (VStr (wallet (result response)))
    ∧ fields !! "chain_of_thought" = Some (VStr (chain_of_thought response))
    ∧ fields !! "winning_tweet_text" = Some (dict_get_or winning_entry "text" (VStr ""))
    ∧ fields !! "winner_username" = Some (VAtom (atoms_get_or author "username" (AStr "")))
    ∧ fields !! "winner_author_id" = Some (dict_get_or winning_entry "author_id" (VStr "")).
Proof.
  intros Hwallet Htid Hpost Hentry Hauthor.
  exists (<["updated_at" := VTime (env_now e (S (w_ticks w)))]>
            (winner_fields
               (dict_get (env_reply_to_tweet e (w_ticks w) tweet_id announcement_no_impressive) "id")
               response winning_entry author)).
  split; [|by repeat split].
  unfold announce_and_close, mbind, M_bind, lift, getitem. simpl.
  rewrite Htid. simpl. unfold closing_announcement. rewrite Hwallet. simpl.
  unfold has_key.
  rewrite bool_decide_eq_false_2 by (rewrite Hpost; by intros [? ?]).
  rewrite Hentry, Hauthor. simpl.
  unfold GameStore.update_game, mbind, M_bind, now, GameStore.update_one, logging. simpl.
  by rewrite <- app_assoc.
Qed.

(** An exception of the judge leaves [select_winner_llm] as it came:
    the call it comes from stands before the [try]. *)
Lemma select_winner_llm_raises (game_type : value) (entries : list dict) (w : world)
    (ex : exn) :
  env_load_chat_model e = Ok tt →
  json_dumps_ok entries = true →
  env_judge e (w_ticks w) game_type (instructions_for game_type) entries = JudgeRaises ex →
  select_winner_llm e game_type entries w =
    (Raise ex, record_call (CallJudge game_type (instructions_for game_type) entries) w).
Proof.
  intros Hload Hjson Hjudge.
  unfold select_winner_llm, mbind, M_bind, lift, ainvoke.
  rewrite Hload. simpl. rewrite Hjson. simpl. by rewrite Hjudge.
Qed.

(** The dictionary of the [except] branch is never returned. *)
Lemma select_winner_llm_never_falls_back (game_type : value) (entries : list dict)
    (w : world) (first : dict) (explanation : string) :
  fst (select_winner_llm e game_type entries w) ≠ Ok (FallbackDict first explanation).
Proof.
  unfold select_winner_llm, mbind, M_bind, lift, ainvoke, try_except.
  destruct (env_load_chat_model e) as [[]|]; [|done].
  destruct (json_dumps_ok entries); simpl; [|done].
  by destruct (env_judge _ _ _ _ _).
Qed.

(** A reply contributes an entry exactly when its text holds an
    address, and the wallet of the entry is one of the addresses of the
    text. *)
Lemma entry_of_reply_spec (reply : dict) (content : string) :
  dict_get_or reply "text" (VStr "") = VStr content →
  (entry_of_reply e reply = Ok None ↔ Utils.extract_solana_addresses content = [])
  ∧ (Utils.extract_solana_addresses content ≠ [] →
     ∃ a entry, a ∈ Utils.extract_solana_addresses content
                ∧ entry_of_reply e reply = Ok (Some entry)
                ∧ entry !! "wallet" = Some (VStr a)
                ∧ entry !! "text" = Some (VStr content)).
Proof.
  intros Htext. unfold entry_of_reply. rewrite Htext. simpl.
  unfold mbind, outcome_bind.
  destruct (Utils.extract_solana_addresses content) as [|a0 rest] eqn:Haddr.
  - split; [done|]. by intros [].
  - unfold set_first.
    assert (is_Some ((a0 :: rest) !! (env_set_first e (a0 :: rest) mod length (a0 :: rest))%nat))
      as [a Ha].
    { apply lookup_lt_is_Some. apply Nat.mod_upper_bound. simpl. lia. }
    rewrite Ha. split; [split; done|]. intros _. eexists a, _.
    split; [by eapply list_elem_of_lookup_2|]. split; [reflexivity|]. done.
Qed.

End FinalStep.

(** ** The creation of a game *)

Section Creation.

Import GameAgent.

Variable e : env.







(** The six durations are distinct: a uniform draw of the index is a
    uniform draw of the duration. *)
Lemma possible_durations_distinct : NoDup possible_durations.
Proof. compute_done. Qed.


(** The announcement of every game type ends with the placeholder, and
    filling it in puts the value there. *)
Lemma body_rendering (game_type v : string) :
  game_type ∈ GAME_TYPES →
  body_of game_type = body_front game_type +:+ "{result_time}"
  ∧ PyStr.format_result_time (body_of game_type) v = body_front game_type +:+ v.
Proof.
  unfold GAME_TYPES. rewrite !elem_of_cons, elem_of_nil.
  intros [->|[->|[->|[->|[->|[->|[->|[]]]]]]]];
    (split; [vm_compute; reflexivity|]);
    match goal with
    | |- _ = body_front ?g +:+ _ =>
        transitivity (body_front g +:+ (v +:+ ""));
        [vm_compute; reflexivity | by rewrite append_empty_r]
    end.
Qed.

Lemma bind_run {A B} (m : M A) (f : A → M B) (w w1 : world) (a : A) :
  m w = (Ok a, w1) → (m ≫= f) w = f a w1.
Proof. intros Hm. unfold mbind, M_bind. by rewrite Hm. Qed.

Lemma choose_game_run (w : world) :
  choose_game e w = (Ok (chosen_game_type e w, body_of (chosen_game_type e w)), tick w).
Proof.
  unfold choose_game, chosen_game_type, mbind, M_bind, random_choice, list_getitem.
  change (length _) with 7%nat. unfold GAME_TYPES.
  assert (env_random e (w_ticks w) mod 7 < 7)%nat as Hlt by (apply Nat.mod_upper_bound; lia).
  destruct (env_random e (w_ticks w) mod 7)%nat as [|[|[|[|[|[|[|k]]]]]]]; try lia; done.
Qed.

Lemma init_configured (w : world) : store_configured e → GameStore.init e w = (Ok tt, w).
Proof.
  intros (uri & Huri & Hne). unfold GameStore.init. rewrite Huri.
  by destruct (String.eqb_spec uri "").
Qed.

Lemma game_deadline_world (text : string) (w : world) :
  w_store (snd (game_deadline e text w)) = w_store w
  ∧ w_log (snd (game_deadline e text w)) = w_log w
  ∧ w_calls (snd (game_deadline e text w)) = w_calls w.
Proof.
  unfold game_deadline, mbind, M_bind, lift, now, random_choice, tick.
  destruct (explicit_duration _).
  - destruct (int s); [|done]. simpl.
    destruct (Datetime.timedelta_seconds _); [|done]. by destruct (Datetime.add _ _).
  - simpl. destruct (list_getitem _ _); [|done]. simpl.
    destruct (Datetime.timedelta_minutes _); [|done]. by destruct (Datetime.add _ _).
Qed.

(** The creation up to the answer of the platform. *)
Lemma run_create_after_publish (w : world) :
  run_create_game_agent_task e w =
    (if has_key (post_result_of e w) "error" then
       error ← lift (getitem (post_result_of e w) "error");
       logging ERROR (MsgPostError error)
     else if negb (truthy (dict_get (post_result_of e w) "id")) then
       logging ERROR MsgNoTweetId
     else
       '(tweet_text, close_at) ← game_deadline e (body_of (chosen_game_type e w));
       logging INFO (MsgGamePosted (chosen_game_type e w)
                       (dict_get (post_result_of e w) "id") close_at);;
       GameStore.init e;;
       game_id ← uuid4 e;
       GameStore.create_game e game_id (dict_get (post_result_of e w) "id")
         (chosen_game_type e w) close_at GameStore.default_status)
      (after_publish e w).
Proof.
  unfold run_create_game_agent_task.
  rewrite (bind_run _ _ _ _ _ (choose_game_run w)). cbv beta iota.
  do 3 (erewrite bind_run by reflexivity; cbv beta iota).
  reflexivity.
Qed.

Lemma bind_raise {A B} (m : M A) (f : A → M B) (w w1 : world) (ex : exn) :
  m w = (Raise ex, w1) → (m ≫= f) w = (Raise ex, w1).
Proof. intros Hm. unfold mbind, M_bind. by rewrite Hm. Qed.

Lemma init_outcome (w : world) :
  GameStore.init e w = (Ok tt, w) ∨ GameStore.init e w = (Raise ValueError, w).
Proof. unfold GameStore.init. repeat case_match; auto. Qed.

(** C5. The creation of a game is all or nothing for the store.  When
    the publication answers with an error or without a post identifier,
    the creation returns and the store is left as it is.  When it answers
    with a post identifier, either the creation raises, because the
    computation of the deadline raised or because the store is not
    configured, and the store is left as it is; or it returns and exactly
    one record is added: open, under the identifier just generated, with
    the identifier of the post, the game type, the deadline computed and
    no winner. *)
Theorem create_game_all_or_nothing (w : world) :
  (publish_succeeded (post_result_of e w) = false →
     fst (run_create_game_agent_task e w) = Ok tt
     ∧ w_store (snd (run_create_game_agent_task e w)) = w_store w)
  ∧ (publish_succeeded (post_result_of e w) = true →
     (∃ ex,
        fst (run_create_game_agent_task e w) = Raise ex
        ∧ w_store (snd (run_create_game_agent_task e w)) = w_store w
        ∧ (fst (game_deadline e (body_of (chosen_game_type e w)) (after_publish e w))
             = Raise ex
           ∨ ¬ store_configured e ∧ ex = ValueError))
     ∨ (∃ (doc : dict) (text : string) (close_at : Z),
          fst (run_create_game_agent_task e w) = Ok tt
          ∧ w_store (snd (run_create_game_agent_task e w)) = w_store w ++ [doc]
          ∧ store_configured e
          ∧ fst (game_deadline e (body_of (chosen_game_type e w)) (after_publish e w))
              = Ok (text, close_at)
          ∧ doc !! "status" = Some (VStr "open")
          ∧ doc !! "game_id"
              = Some (VStr (env_uuid4 e
                              (w_ticks (snd (game_deadline e (body_of (chosen_game_type e w))
                                               (after_publish e w))))))
          ∧ doc !! "tweet_id" = Some (dict_get (post_result_of e w) "id")
          ∧ doc !! "game_type" = Some (VStr (chosen_game_type e w))
          ∧ doc !! "close_at" = Some (VTime close_at)
          ∧ doc !! "winner_tweet_id" = Some VNone
          ∧ doc !! "winner_wallet" = Some VNone)).
Proof.
  rewrite run_create_after_publish. unfold publish_succeeded. split.
  - destruct (has_key (post_result_of e w) "error") eqn:Herr.
    + intros _. unfold has_key in Herr. apply bool_decide_eq_true in Herr as [v Hv].
      unfold mbind, M_bind, lift, getitem. by rewrite Hv.
    + destruct (truthy (dict_get (post_result_of e w) "id")); [done|]. by intros _.
  - intros [Herr%negb_true_iff Hid]%andb_true_iff. rewrite Herr, Hid.
    change (negb true) with false. cbv iota.
    destruct (game_deadline_world (body_of (chosen_game_type e w)) (after_publish e w))
      as (Hstore & _ & _).
    destruct (game_deadline e (body_of (chosen_game_type e w)) (after_publish e w))
      as [[[text close_at]|ex] w1] eqn:Hdeadline; cbn [fst snd] in *.
    + rewrite (bind_run _ _ _ _ _ Hdeadline). cbv beta iota.
      erewrite bind_run by reflexivity.
      destruct (env_getenv e "COSMOS_MONGO_URI") as [uri|] eqn:Huri;
        [destruct (String.eqb_spec uri "") as [->|Hne]|].
      * left. exists ValueError.
        erewrite bind_raise by (unfold GameStore.init; rewrite Huri; reflexivity).
        split; [reflexivity|]. split; [exact Hstore|]. right. split; [|reflexivity].
        intros (uri & Huri' & Hne). congruence.
      * right.
        erewrite bind_run by (apply init_configured; by exists uri).
        erewrite bind_run by reflexivity.
        eexists _, text, close_at. split; [reflexivity|].
        split; [cbn; by rewrite Hstore|].
        split; [by exists uri|]. by repeat split.
      * left. exists ValueError.
        erewrite bind_raise by (unfold GameStore.init; rewrite Huri; reflexivity).
        split; [reflexivity|]. split; [exact Hstore|]. right. split; [|reflexivity].
        intros (uri & Huri' & Hne). congruence.
    + left. exists ex. rewrite (bind_raise _ _ _ _ _ Hdeadline).
      split; [reflexivity|]. split; [exact Hstore|]. by left.
Qed.

End Creation.

(** ** The scenario, run *)

Section Examples.

Import GameAgent Scenario Scenario2.

Example winner_announced_run :
  fst (run_close_game_agent_task winner_announced start) = Ok tt
  ∧ stored_field (snd (run_close_game_agent_task winner_announced start)) 1 "status"
    = Some (VStr "closed")
  ∧ stored_field (snd (run_close_game_agent_task winner_announced start)) 1 "winner_wallet"
    = Some (VStr wrapped_sol)
  ∧ stored_field (snd (run_close_game_agent_task winner_announced start)) 1 "winner_username"
    = Some (VStr "bob").
Proof. compute_done. Qed.

Example valid_entries_of_reply :
  valid_entries_of winner_announced [reply] = Ok [entry].
Proof. compute_done. Qed.

(** C1, counterexample.  The judge names a winner, the platform refuses
    the announcement: the error is logged and the record of the game is
    as before, open. *)
Lemma announcement_error_leaves_game_open :
  fst (run_close_game_agent_task announcement_refused start) = Ok tt
  ∧ last (w_calls (snd (run_close_game_agent_task announcement_refused start)))
    = Some (CallReplyToTweet (VStr "1900000000000000001") (announcement_winner wrapped_sol))
  ∧ last (w_log (snd (run_close_game_agent_task announcement_refused start)))
    = Some (ERROR, MsgAnnouncementError (VStr "6f1c2a9e-game")
                     (VStr "Twitter API error: 403 Forbidden"))
  ∧ w_store (snd (run_close_game_agent_task announcement_refused start)) = w_store start
  ∧ stored_field (snd (run_close_game_agent_task announcement_refused start)) 1 "status"
    = Some (VStr "open").
Proof. compute_done. Qed.

(** C7, counterexample.  The judge returns an empty wallet and names the
    reply: the record is closed with the rationale of the judge as chain
    of thought, the text of the reply and the name of its author. *)
Lemma no_impressive_submission_keeps_winner_fields :
  stored_field (snd (run_close_game_agent_task no_impressive_submission start)) 1 "status"
    = Some (VStr "closed")
  ∧ last (w_calls (snd (run_close_game_agent_task no_impressive_submission start)))
    = Some (CallReplyToTweet (VStr "1900000000000000001") announcement_no_impressive)
  ∧ stored_field (snd (run_close_game_agent_task no_impressive_submission start)) 1
      "winner_wallet" = Some (VStr "")
  ∧ stored_field (snd (run_close_game_agent_task no_impressive_submission start)) 1
      "chain_of_thought" = Some (VStr "No entry was funny enough.")
  ∧ stored_field (snd (run_close_game_agent_task no_impressive_submission start)) 1
      "winning_tweet_text"
    = Some (VStr ("Why did the validator cross the road? " +:+ wrapped_sol))
  ∧ stored_field (snd (run_close_game_agent_task no_impressive_submission start)) 1
      "winner_username" = Some (VStr "bob").
Proof. compute_done. Qed.

(** C2, at a judge whose answer does not parse: [select_winner_llm]
    raises what the judge raised instead of returning the first entry,
    and the sweep that called it ends there, the game still open. *)
Theorem parse_failure_is_propagated :
  fst (select_winner_llm judge_unparsable (VStr "best_joke") [entry] start)
    = Raise (JudgeError "OutputParserException")
  ∧ fst (run_close_game_agent_task judge_unparsable start)
    = Raise (JudgeError "OutputParserException")
  ∧ w_store (snd (run_close_game_agent_task judge_unparsable start)) = w_store start.
Proof. compute_done. Qed.

(** C6, at a reply that names two addresses: both are addresses of the
    text, [wrapped_sol] coming first, and the wallet of the entry is the
    other one when the iteration over the set starts there. *)
Theorem wallet_is_not_the_first_address :
  Utils.findall ("pay " +:+ wrapped_sol +:+ " or else " +:+ system_program)
    = [wrapped_sol; system_program]
  ∧ Utils.extract_solana_addresses ("pay " +:+ wrapped_sol +:+ " or else " +:+ system_program)
    = [wrapped_sol; system_program]
  ∧ (entry_of_reply second_address_first reply_two_addresses
       ≫= fun o => mret (o ≫= fun entry : dict => entry !! "wallet"))
    = Ok (Some (VStr system_program)).
Proof. compute_done. Qed.

(** The theorems above, at the scenario. *)

Lemma extract_solana_addresses_sound_witness :
  is_substring wrapped_sol ("pay " +:+ wrapped_sol +:+ " or else " +:+ system_program)
  ∧ well_formed_address wrapped_sol.
Proof.
  apply (extract_solana_addresses_sound
           ("pay " +:+ wrapped_sol +:+ " or else " +:+ system_program)).
  vm_compute. apply list_elem_of_here.
Defined.

Lemma close_game_fetch_error_witness :
  close_game fetch_rate_limited game start =
    (Ok tt,
     MkWorld (w_store start)
       (w_log start ++
          [ (INFO, MsgProcessingClosure (VStr "6f1c2a9e-game"));
            (ERROR, MsgRateLimit (VStr "6f1c2a9e-game")
                      (VStr "Twitter API error: 429 Too Many Requests")) ])
       (w_calls start ++ [CallFindAnswers (VStr "1900000000000000001")])
       2).
Proof.
  apply (close_game_fetch_error fetch_rate_limited game start
           (VStr "6f1c2a9e-game") (VStr "1900000000000000001") an_hour_before
           {[ "error" := VStr "Twitter API error: 429 Too Many Requests" ]} []
           "Twitter API error: 429 Too Many Requests");
    [reflexivity | reflexivity | reflexivity | vm_compute; discriminate
    | reflexivity | reflexivity | discriminate].
Defined.

Lemma closed_game_is_left_unchanged_witness :
  w_store (snd (run_operation winner_announced CloseSweep start)) !! 0%nat
    = Some closed_game.
Proof.
  apply (closed_game_is_left_unchanged winner_announced CloseSweep start 0 closed_game
           (VStr "0a0b0c0d-game")); [reflexivity | reflexivity | reflexivity |].
  intros g Hg Hopen.
  apply elem_of_cons in Hg as [->|Hg]; [vm_compute in Hopen; discriminate|].
  apply list_elem_of_singleton in Hg as ->. vm_compute. discriminate.
Defined.

Lemma winner_author_id_is_empty_witness :
  closed_with_winner !! "winner_author_id" = Some (VStr "").
Proof.
  apply (winner_author_id_is_empty winner_announced game start 1 game closed_with_winner
           wrapped_sol); compute_done.
Defined.

Lemma announcement_error_blocks_closure_witness :
  announce_and_close announcement_refused game (VStr "6f1c2a9e-game") [entry]
    (Structured (MkWinnerResponse (MkWinnerResult wrapped_sol "1900000000000000002")
                   "The validator joke lands best.")) start =
    (Ok tt,
     MkWorld (w_store start)
       (w_log start ++ [(ERROR, MsgAnnouncementError (VStr "6f1c2a9e-game")
                                  (VStr "Twitter API error: 403 Forbidden"))])
       (w_calls start ++ [CallReplyToTweet (VStr "1900000000000000001")
                            (announcement_winner wrapped_sol)])
       1).
Proof.
  apply (announcement_error_blocks_closure announcement_refused game (VStr "6f1c2a9e-game")
           [entry]
           (MkWinnerResponse (MkWinnerResult wrapped_sol "1900000000000000002")
              "The validator joke lands best.")
           start (VStr "1900000000000000001") (VStr "Twitter API error: 403 Forbidden"));
    reflexivity.
Defined.

Lemma no_impressive_submission_closure_witness :
  ∃ fields : dict,
    fst (announce_and_close no_impressive_submission game (VStr "6f1c2a9e-game") [entry]
           (Structured (MkWinnerResponse (MkWinnerResult "" "1900000000000000002")
                          "No entry was funny enough.")) start) = Ok tt
    ∧ fields !! "status" = Some (VStr "closed")
    ∧ fields !! "chain_of_thought" = Some (VStr "No entry was funny enough.").
Proof.
  destruct (no_impressive_submission_closure no_impressive_submission game
              (VStr "6f1c2a9e-game") [entry]
              (MkWinnerResponse (MkWinnerResult "" "1900000000000000002")
                 "No entry was funny enough.")
              start (VStr "1900000000000000001") entry bob)
    as (fields & Hrun & Hstatus & _ & Hthought & _);
    [reflexivity | reflexivity | reflexivity | reflexivity | reflexivity |].
  exists fields. rewrite Hrun. split; [reflexivity|]. split; [exact Hstatus | exact Hthought].
Defined.


(** C5, counterexample.  The platform answers the announcement with a
    post identifier and the store is not configured: the creation raises
    after the post, and no record is stored. *)
Lemma published_game_is_not_stored :
  publish_succeeded (post_result_of store_not_configured start) = true
  ∧ fst (run_create_game_agent_task store_not_configured start) = Raise ValueError
  ∧ w_calls (snd (run_create_game_agent_task store_not_configured start))
    = [CallPostTweet (body_of "best_joke")]
  ∧ w_store (snd (run_create_game_agent_task store_not_configured start)) = w_store start.
Proof. compute_done. Qed.

Lemma create_game_all_or_nothing_witness :
  fst (run_create_game_agent_task ninety_minutes_configured start) = Ok tt
  ∧ ∃ doc : dict,
      w_store (snd (run_create_game_agent_task ninety_minutes_configured start))
        = w_store start ++ [doc]
      ∧ doc !! "status" = Some (VStr "open")
      ∧ doc !! "game_id" = Some (VStr "123e4567-e89b-42d3-a456-426614174000")
      ∧ doc !! "tweet_id" = Some (VStr "1900000000000000009")
      ∧ doc !! "close_at" = Some (VTime (new_year + 5400 * 1000000)).
Proof.
  assert (fst (run_create_game_agent_task ninety_minutes_configured start) = Ok tt) as Hok
    by compute_done.
  split; [exact Hok|].
  destruct (proj2 (create_game_all_or_nothing ninety_minutes_configured start)
              ltac:(compute_done))
    as [(ex & Hraise & _)
       |(doc & text & close_at & _ & Hstore & _ & Hdeadline & Hstatus & Hid & Htweet
           & _ & Hclose & _)].
  - rewrite Hok in Hraise. discriminate Hraise.
  - exists doc. split; [exact Hstore|]. split; [exact Hstatus|].
    split; [exact Hid|]. split; [exact Htweet|].
    rewrite Hclose. vm_compute in Hdeadline. injection Hdeadline as _ <-. reflexivity.
Defined.

End Examples.

(** * Further properties *)

(** ** Address extraction, continued *)

Section ExtractionMore.

Import Utils.

Lemma class_is_word (c : ascii) : address_char c = true → PyStr.is_word c = true.
Proof. destruct c as [[] [] [] [] [] [] [] []]; vm_compute; done. Qed.

Lemma class_is_not_space (c : ascii) : address_char c = true → PyStr.is_space c = false.
Proof. destruct c as [[] [] [] [] [] [] [] []]; vm_compute; done. Qed.

Lemma length_append (a b : string) :
  String.length (a +:+ b) = (String.length a + String.length b)%nat.
Proof. induction a as [|x a IH]; [done|]. rewrite append_cons. simpl. by rewrite IH. Qed.

Lemma last_char_append (d : option ascii) (a : string) (c : ascii) (b : string) :
  last_char d (a +:+ String c b) = last_char (Some c) b.
Proof.
  revert d; induction a as [|x a IH]; intros d; [done|].
  rewrite append_cons. simpl. apply IH.
Qed.

Lemma last_char_class (d : option ascii) (m : string) :
  m ≠ "" → all_chars address_char m = true → word_opt (last_char d m) = true.
Proof.
  revert d; induction m as [|c m IH]; intros d Hne Hall; [done|].
  simpl in Hall. apply andb_true_iff in Hall as [Hc Hm]. simpl.
  destruct m as [|c' m']; [simpl; by apply class_is_word|].
  by apply IH.
Qed.

Lemma prefix_of_append (a b : string) : prefix_of (String.length a) (a +:+ b) = a.
Proof. induction a as [|x a IH]; [by destruct b|]. rewrite append_cons. simpl. by rewrite IH. Qed.

Lemma drop_append (a b : string) : drop (String.length a) (a +:+ b) = b.
Proof. induction a as [|x a IH]; [by destruct b|]. rewrite append_cons. simpl. by rewrite IH. Qed.

Lemma backtrack_first (tries k : nat) (before : option ascii) (s : string) :
  word_boundary (last_char before (prefix_of k s)) (head_char (drop k s)) = true →
  backtrack (S tries) k before s = Some (prefix_of k s).
Proof. intros H. simpl. by rewrite H. Qed.

(** What [backtrack] returns is closed by a word boundary. *)
Lemma backtrack_boundary (tries k : nat) (before : option ascii) (s m : string) :
  backtrack tries k before s = Some m →
  ∃ k', m = prefix_of k' s
        ∧ word_boundary (last_char before m) (head_char (drop k' s)) = true.
Proof.
  revert k; induction tries as [|t IH]; intros k; simpl; [done|].
  destruct (word_boundary _ _) eqn:Hb.
  - intros [= <-]. by exists k.
  - destruct k as [|k']; [done|]. apply IH.
Qed.

(** A match stands between two characters that are not word characters
    (or at an end of the text). *)
Lemma match_here_delimited (before : option ascii) (s m : string) :
  match_here before s = Some m →
  word_opt before = false
  ∧ ∃ rest, s = m +:+ rest ∧ word_opt (head_char rest) = false.
Proof.
  intros Hm. destruct (match_here_sound _ _ _ Hm) as ((rest0 & Hs) & Hall & Hlen).
  assert (m ≠ "") as Hne by (intros ->; simpl in Hlen; lia).
  unfold match_here in Hm.
  destruct (word_boundary before (head_char s)) eqn:Hb; [|done].
  destruct (min_len <=? _)%nat; [|done].
  destruct (backtrack_boundary _ _ _ _ _ Hm) as (k & Hk & Hend).
  split.
  - destruct m as [|c m']; [done|]. rewrite Hs, append_cons in Hb. simpl in Hb, Hall.
    apply andb_true_iff in Hall as [Hc _].
    unfold word_boundary in Hb. simpl in Hb. rewrite (class_is_word _ Hc) in Hb.
    by destruct (word_opt before).
  - exists (drop k s). split; [rewrite Hk at 1; apply prefix_of_drop|].
    unfold word_boundary in Hend. rewrite (last_char_class _ _ Hne Hall) in Hend.
    by destruct (word_opt (head_char (drop k s))).
Qed.

Lemma findall_from_delimited (s : string) :
  ∀ skip before m, m ∈ findall_from skip before s →
    ∃ pre post, s = pre +:+ m +:+ post
                ∧ word_opt (last_char before pre) = false
                ∧ word_opt (head_char post) = false.
Proof.
  induction s as [|c r IH]; intros skip before m; simpl.
  - by intros ?%elem_of_nil.
  - assert (Hrest : ∀ skip', m ∈ findall_from skip' (Some c) r →
              ∃ pre post, String c r = pre +:+ m +:+ post
                          ∧ word_opt (last_char before pre) = false
                          ∧ word_opt (head_char post) = false).
    { intros skip' Hin.
      destruct (IH _ _ _ Hin) as (pre & post & -> & Hpre & Hpost).
      by exists (String c pre), post. }
    destruct skip as [|k]; [|by apply Hrest].
    destruct (match_here before (String c r)) as [m0|] eqn:Hm; [|by apply Hrest].
    intros [->|Hin]%elem_of_cons; [|by eapply Hrest].
    destruct (match_here_delimited _ _ _ Hm) as (Hbefore & rest & Hs & Hrest0).
    exists "", rest. by rewrite Hs.
Qed.

(** X1. Every address that [extract_solana_addresses] returns stands in
    the text between two characters that are not word characters, or at
    an end of the text: an address glued to a letter, a digit or an
    underscore is not returned. *)
Theorem extracted_addresses_are_delimited (text a : string) :
  a ∈ extract_solana_addresses text →
  ∃ pre post, text = pre +:+ a +:+ post
              ∧ word_opt (last_char None pre) = false
              ∧ word_opt (head_char post) = false.
Proof.
  intros [Hfind _]%extract_solana_addresses_spec.
  by apply findall_from_delimited in Hfind.
Qed.

Lemma take_class_append (a post : string) (n : nat) :
  all_chars address_char a = true → (String.length a ≤ n)%nat →
  word_opt (head_char post) = false →
  take_class n (a +:+ post) = a.
Proof.
  revert n; induction a as [|c a IH]; intros n Hall Hlen Hpost.
  - destruct n as [|n], post as [|p post']; try done. simpl in *.
    destruct (address_char p) eqn:Hp; [|done].
    by rewrite (class_is_word _ Hp) in Hpost.
  - simpl in Hall, Hlen. apply andb_true_iff in Hall as [Hc Ha].
    destruct n as [|n]; [lia|]. rewrite append_cons. simpl. rewrite Hc.
    rewrite IH; [done|done|lia|done].
Qed.

Lemma match_here_complete (before : option ascii) (a post : string) :
  word_opt before = false →
  all_chars address_char a = true →
  (32 ≤ String.length a ≤ 44)%nat →
  word_opt (head_char post) = false →
  match_here before (a +:+ post) = Some a.
Proof.
  intros Hbefore Hall Hlen Hpost.
  assert (a ≠ "") as Hne by (intros ->; simpl in Hlen; lia).
  unfold match_here, max_len, min_len.
  rewrite (take_class_append a post 44 Hall) by (done || lia).
  assert (word_boundary before (head_char (a +:+ post)) = true) as ->.
  { destruct a as [|c a']; [done|]. rewrite append_cons. simpl in *.
    apply andb_true_iff in Hall as [Hc _].
    unfold word_boundary. simpl. by rewrite Hbefore, (class_is_word _ Hc). }
  destruct (Nat.leb_spec 32 (String.length a)); [|lia].
  pose proof (backtrack_first (String.length a - 32) (String.length a) before (a +:+ post))
    as Hfirst.
  rewrite prefix_of_append, drop_append in Hfirst. apply Hfirst.
  unfold word_boundary. by rewrite (last_char_class _ _ Hne Hall), Hpost.
Qed.

Lemma class_run_tail (m' rest : string) :
  all_chars address_char m' = true → class_run (String.length m') (m' +:+ rest).
Proof.
  intros Hall. unfold class_run.
  induction m' as [|x m IH]; [by destruct rest|].
  simpl in Hall. apply andb_true_iff in Hall as [Hx Hm].
  rewrite append_cons. simpl. rewrite Hx. simpl. by rewrite IH.
Qed.

Lemma findall_from_complete (a post : string) :
  all_chars address_char a = true →
  (32 ≤ String.length a ≤ 44)%nat →
  word_opt (head_char post) = false →
  ∀ pre skip before,
    (skip = 0%nat ∨ word_opt before = true) →
    class_run skip (pre +:+ a +:+ post) →
    word_opt (last_char before pre) = false →
    a ∈ findall_from skip before (pre +:+ a +:+ post).
Proof.
  intros Hall Hlen Hpost.
  assert (a ≠ "") as Hne by (intros ->; simpl in Hlen; lia).
  induction pre as [|c pre IH]; intros skip before Hskip Hrun Hpre.
  - simpl in Hpre. destruct Hskip as [->|Hw]; [|congruence].
    change ("" +:+ a +:+ post) with (a +:+ post).
    pose proof (match_here_complete before a post Hpre Hall Hlen Hpost) as Hm.
    destruct (a +:+ post) as [|x r] eqn:Hs.
    { destruct a; [done | by rewrite append_cons in Hs]. }
    simpl. rewrite Hm. apply list_elem_of_here.
  - rewrite append_cons. simpl in Hpre.
    destruct skip as [|k].
    + simpl.
      destruct (match_here before (String c (pre +:+ a +:+ post))) as [m|] eqn:Hm.
      * apply list_elem_of_further.
        destruct (match_here_sound _ _ _ Hm) as ((rest & Hs) & Hmall & Hmlen).
        destruct m as [|x m']; [simpl in Hmlen; lia|].
        rewrite append_cons in Hs. injection Hs as <- Hs.
        simpl in Hmall. apply andb_true_iff in Hmall as [Hc Hm'].
        simpl. rewrite Nat.sub_0_r.
        apply IH; [right; simpl; by apply class_is_word | | done].
        rewrite Hs. by apply class_run_tail.
      * apply IH; [by left | done | done].
    + unfold class_run in Hrun. simpl in Hrun.
      destruct (address_char c) eqn:Hc; [|done]. simpl in Hrun.
      simpl. apply IH; [right; simpl; by apply class_is_word | | done].
      unfold class_run. lia.
Qed.

(** X2. An address of the right shape (32 to 44 characters of the
    alphabet, decoding to 32 bytes) that stands in the text between two
    characters that are not word characters, or at an end of the text, is
    returned by [extract_solana_addresses]. *)
Theorem delimited_address_is_extracted (pre a post : string) :
  well_formed_address a →
  word_opt (last_char None pre) = false →
  word_opt (head_char post) = false →
  a ∈ extract_solana_addresses (pre +:+ a +:+ post).
Proof.
  intros (Hall & Hlen & payload & Hdecode & Hpayload) Hpre Hpost.
  apply extract_solana_addresses_spec. split.
  - apply findall_from_complete; [done|done|done|by left|done|done].
  - unfold is_address. rewrite Hdecode. by apply Nat.eqb_eq.
Qed.

Lemma rstrip_class (s : string) : all_chars address_char s = true → PyStr.rstrip s = s.
Proof.
  induction s as [|c s IH]; [done|]. simpl.
  intros [Hc Hs]%andb_true_iff. rewrite (IH Hs).
  destruct s; [by rewrite (class_is_not_space _ Hc) | done].
Qed.

Lemma strip_ones_class (s : string) :
  all_chars address_char s = true → all_chars address_char (Base58.strip_ones s).2 = true.
Proof.
  induction s as [|c s IH]; [done|]. intros Hall.
  pose proof Hall as Hall'. simpl in Hall'. apply andb_true_iff in Hall' as [Hc Hs].
  simpl. destruct c as [[] [] [] [] [] [] [] []]; try exact Hall.
  specialize (IH Hs). by destruct (Base58.strip_ones s).
Qed.

Lemma b58decode_int_class (s : string) (acc : N) :
  all_chars address_char s = true → is_Some (Base58.b58decode_int_from acc s).
Proof.
  revert acc; induction s as [|c s IH]; intros acc; [by eexists|].
  simpl. intros [Hc Hs]%andb_true_iff.
  apply address_char_alphabet in Hc as [d Hd]. rewrite Hd. by apply IH.
Qed.

Lemma b58decode_class (s : string) :
  all_chars address_char s = true → is_Some (Base58.b58decode s).
Proof.
  intros Hall. unfold Base58.b58decode. rewrite (rstrip_class _ Hall).
  pose proof (strip_ones_class _ Hall) as Hrest.
  destruct (Base58.strip_ones s) as [zeros rest]. simpl in Hrest.
  destruct (b58decode_int_class rest 0 Hrest) as [n Hn].
  unfold Base58.b58decode_int. rewrite Hn. by eexists.
Qed.

(** X3. The decoding never fails on what the pattern matches: for every
    candidate of [findall], [b58decode] returns bytes, so the [except]
    branch of [extract_solana_addresses] is never taken and a candidate
    is left out for the length of its payload only. *)
Theorem candidates_always_decode (text candidate : string) :
  candidate ∈ findall text →
  ∃ payload, Base58.b58decode candidate = Some payload
             ∧ (candidate ∈ extract_solana_addresses text ↔ length payload = 32%nat).
Proof.
  intros Hfind.
  destruct (findall_from_sound _ _ _ _ Hfind) as (_ & Hall & _).
  destruct (b58decode_class _ Hall) as [payload Hpayload].
  exists payload. split; [done|].
  rewrite (proj2 (extract_solana_addresses_spec text) candidate).
  unfold is_address. rewrite Hpayload. rewrite Nat.eqb_eq. tauto.
Qed.

(** X4. A text of fewer than 32 characters holds no address. *)
Theorem short_text_has_no_address (text : string) :
  (String.length text < 32)%nat → extract_solana_addresses text = [].
Proof.
  intros Hshort.
  destruct (extract_solana_addresses text) as [|a rest] eqn:Hextract; [done|].
  assert (a ∈ extract_solana_addresses text) as Ha by (rewrite Hextract; apply list_elem_of_here).
  apply extract_solana_addresses_spec in Ha as [Hfind _].
  destruct (findall_from_sound _ _ _ _ Hfind) as ((pre & post & Htext) & _ & Hlen).
  rewrite Htext, !length_append in Hshort. lia.
Qed.

End ExtractionMore.

(** ** The store *)

Section Store.

Variable e : env.



Lemma set_first_match_none k v fields (s : list dict) :
  Forall (fun d => GameStore.matches k v d = false) s →
  GameStore.set_first_match k v fields s = s.
Proof. induction 1 as [|d s Hd _ IH]; simpl; [done|]. by rewrite Hd, IH. Qed.

Lemma set_first_match_at k v fields (s : list dict) (i : nat) (d : dict) :
  s !! i = Some d → GameStore.matches k v d = true →
  (∀ j d', (j < i)%nat → s !! j = Some d' → GameStore.matches k v d' = false) →
  GameStore.set_first_match k v fields s = <[i := fields ∪ d]> s.
Proof.
  revert i; induction s as [|x s IH]; intros i Hi Hd Hbefore; [done|].
  destruct i as [|i]; simpl in *.
  - injection Hi as ->. by rewrite Hd.
  - rewrite (Hbefore 0%nat x) by (done || lia). f_equal.
    apply IH; [done|done|]. intros j d' Hj Hd'. apply (Hbefore (S j) d'); [lia|done].
Qed.

(** X6. [update_game] for an identifier that no record carries writes
    nothing: no record is added or changed; the update is logged all the
    same. *)
Theorem update_game_unknown_id (game_id : value) (update_fields : dict) (w : world) :
  Forall (fun d => GameStore.matches "game_id" game_id d = false) (w_store w) →
  GameStore.update_game e game_id update_fields w =
    (Ok tt,
     MkWorld (w_store w)
       (w_log w ++ [(INFO, MsgGameUpdated game_id
                             (<["updated_at" := VTime (env_now e (w_ticks w))]> update_fields))])
       (w_calls w) (S (w_ticks w))).
Proof.
  intros Hnone.
  unfold GameStore.update_game, GameStore.update_one, mbind, M_bind, now, logging. simpl.
  by rewrite set_first_match_none.
Qed.

(** X7. [update_game] changes the first record that carries the
    identifier and no other: that record takes the given fields and the
    reading of the clock as [updated_at] (whatever [updated_at] was
    given), and keeps its other fields. *)
Theorem update_game_first_match (game_id : value) (update_fields : dict) (w : world)
    (i : nat) (d : dict) :
  w_store w !! i = Some d →
  GameStore.matches "game_id" game_id d = true →
  (∀ j d', (j < i)%nat → w_store w !! j = Some d' →
           GameStore.matches "game_id" game_id d' = false) →
  ∃ d',
    w_store (snd (GameStore.update_game e game_id update_fields w)) = <[i := d']> (w_store w)
    ∧ d' !! "updated_at" = Some (VTime (env_now e (w_ticks w)))
    ∧ (∀ k v, k ≠ "updated_at" → update_fields !! k = Some v → d' !! k = Some v)
    ∧ (∀ k, k ≠ "updated_at" → update_fields !! k = None → d' !! k = d !! k).
Proof.
  intros Hi Hd Hbefore.
  exists (<["updated_at" := VTime (env_now e (w_ticks w))]> update_fields ∪ d).
  split; [|split; [|split]].
  - unfold GameStore.update_game, GameStore.update_one, mbind, M_bind, now, logging. simpl.
    by apply set_first_match_at.
  - apply lookup_union_Some_l. apply lookup_insert_eq.
  - intros k v Hk Hv. apply lookup_union_Some_l. by rewrite lookup_insert_ne.
  - intros k Hk Hv. apply lookup_union_r. by rewrite lookup_insert_ne.
Qed.

End Store.

(** ** The closure of a game, branch by branch *)

Section Branches.

Import GameAgent.

Variable e : env.

(** A game that is due, read up to the fetch of its replies. *)
Lemma close_game_due (game : dict) (w : world) (game_id tweet_id : value) (close_at : Z) :
  game !! "game_id" = Some game_id →
  game !! "tweet_id" = Some tweet_id →
  game !! "close_at" = Some (VTime close_at) →
  close_at ≤ env_now e (w_ticks w) →
  close_game e game w =
    (match fetch_error (env_find_answers e (S (w_ticks w)) tweet_id) with
     | Some error_message =>
         rate_limited ← lift (contains_str "429" error_message);
         if (rate_limited : bool)
         then logging ERROR (MsgRateLimit game_id error_message)
         else logging ERROR (MsgFetchError game_id error_message)
     | None =>
         match env_find_answers e (S (w_ticks w)) tweet_id with
         | [] =>
             logging INFO (MsgNoReplies game_id);;
             post_announcement ← reply_to_tweet e tweet_id announcement_no_replies;
             close_game_no_winner e game post_announcement
         | _ :: _ =>
             logging INFO (MsgRepliesReceived game_id
                             (length (env_find_answers e (S (w_ticks w)) tweet_id)));;
             valid_entries ← lift (valid_entries_of e
                                     (env_find_answers e (S (w_ticks w)) tweet_id));
             match valid_entries with
             | [] =>
                 logging INFO (MsgNoValidWallet game_id);;
                 post_announcement ← reply_to_tweet e tweet_id announcement_no_valid_wallet;
                 close_game_no_winner e game post_announcement
             | _ :: _ =>
                 game_type ← lift (getitem game "game_type");
                 winner ← select_winner_llm e game_type valid_entries;
                 logging INFO (MsgWinnerSelected game_id winner);;
                 announce_and_close e game game_id valid_entries winner
             end
         end
     end)
      (MkWorld (w_store w) (w_log w ++ [(INFO, MsgProcessingClosure game_id)])
         (w_calls w ++ [CallFindAnswers tweet_id]) (S (S (w_ticks w)))).
Proof.
  intros Hgid Htid Hclose Hdue.
  unfold close_game, not_due, dict_get. rewrite Hclose. simpl.
  unfold mbind at 1 2. unfold M_bind at 1 2. unfold now, lift, Datetime.lt. simpl.
  replace (env_now e (w_ticks w) <? close_at) with false
    by (symmetry; apply Z.ltb_ge; lia).
  unfold close_due_game, getitem. rewrite Hgid, Htid.
  unfold mbind at 1 2 3 4. unfold M_bind at 1 2 3 4. reflexivity.
Qed.

Lemma close_game_no_winner_run (game : dict) (post_announcement : dict) (w : world)
    (game_id : value) :
  game !! "game_id" = Some game_id →
  close_game_no_winner e game post_announcement w =
    (Ok tt,
     MkWorld
       (GameStore.set_first_match "game_id" game_id
          (<["updated_at" := VTime (env_now e (w_ticks w))]> (no_winner_fields post_announcement))
          (w_store w))
       (w_log w ++ [(INFO, MsgGameUpdated game_id
                             (<["updated_at" := VTime (env_now e (w_ticks w))]>
                                (no_winner_fields post_announcement)))])
       (w_calls w) (S (w_ticks w))).
Proof.
  intros Hgid. unfold close_game_no_winner, getitem. rewrite Hgid. reflexivity.
Qed.

(** X8. A game without [close_at], or whose [close_at] is later than
    the clock, is passed over: the closure returns without a call to a
    collaborator, without a log record and without a write. *)
Theorem close_game_not_due (game : dict) (w : world) :
  truthy (dict_get game "close_at") = false
  ∨ (∃ close_at, game !! "close_at" = Some (VTime close_at)
                 ∧ env_now e (w_ticks w) < close_at) →
  fst (close_game e game w) = Ok tt
  ∧ w_store (snd (close_game e game w)) = w_store w
  ∧ w_log (snd (close_game e game w)) = w_log w
  ∧ w_calls (snd (close_game e game w)) = w_calls w.
Proof.
  unfold close_game, not_due. intros [Hfalsy|(close_at & Hclose & Hlater)].
  - rewrite Hfalsy. done.
  - unfold dict_get. rewrite Hclose. simpl.
    unfold mbind, M_bind, now, lift, Datetime.lt. simpl.
    by rewrite (proj2 (Z.ltb_lt _ _) Hlater).
Qed.

(** X9. When the fetch of a due game returns no reply, the announcement
    of no replies is posted and the game is closed without winner
    whatever the platform answers to the announcement, an error
    included: the identifier of the announcement is recorded when there is
    one, the empty string otherwise. *)
Theorem close_game_no_replies (game : dict) (w : world) (game_id tweet_id : value)
    (close_at : Z) :
  game !! "game_id" = Some game_id →
  game !! "tweet_id" = Some tweet_id →
  game !! "close_at" = Some (VTime close_at) →
  close_at ≤ env_now e (w_ticks w) →
  env_find_answers e (S (w_ticks w)) tweet_id = [] →
  close_game e game w =
    (Ok tt,
     MkWorld
       (GameStore.set_first_match "game_id" game_id
          (no_winner_closure e w tweet_id announcement_no_replies) (w_store w))
       (w_log w ++
          [ (INFO, MsgProcessingClosure game_id);
            (INFO, MsgNoReplies game_id);
            (INFO, MsgGameUpdated game_id
                     (no_winner_closure e w tweet_id announcement_no_replies)) ])
       (w_calls w ++
          [ CallFindAnswers tweet_id;
            CallReplyToTweet tweet_id announcement_no_replies ])
       (S (S (S (S (w_ticks w)))))).
Proof.
  intros Hgid Htid Hclose Hdue Hfetch.
  rewrite (close_game_due _ _ _ _ _ Hgid Htid Hclose Hdue), Hfetch. simpl.
  unfold mbind at 1 2. unfold M_bind at 1 2. unfold logging, reply_to_tweet, record_call.
  cbn [w_store w_log w_calls w_ticks].
  rewrite (close_game_no_winner_run _ _ _ _ Hgid). cbn [w_store w_log w_calls w_ticks].
  unfold no_winner_closure. by rewrite <- !app_assoc.
Qed.

(** X10. When a due game has replies but none with a valid address,
    the announcement of no valid wallet is posted and the game is closed
    without winner, without a call to the judge. *)
Theorem close_game_no_valid_wallet (game : dict) (w : world) (game_id tweet_id : value)
    (close_at : Z) (first : dict) (rest : list dict) :
  game !! "game_id" = Some game_id →
  game !! "tweet_id" = Some tweet_id →
  game !! "close_at" = Some (VTime close_at) →
  close_at ≤ env_now e (w_ticks w) →
  env_find_answers e (S (w_ticks w)) tweet_id = first :: rest →
  truthy (dict_get first "error") = false →
  valid_entries_of e (first :: rest) = Ok [] →
  close_game e game w =
    (Ok tt,
     MkWorld
       (GameStore.set_first_match "game_id" game_id
          (no_winner_closure e w tweet_id announcement_no_valid_wallet) (w_store w))
       (w_log w ++
          [ (INFO, MsgProcessingClosure game_id);
            (INFO, MsgRepliesReceived game_id (S (length rest)));
            (INFO, MsgNoValidWallet game_id);
            (INFO, MsgGameUpdated game_id
                     (no_winner_closure e w tweet_id announcement_no_valid_wallet)) ])
       (w_calls w ++
          [ CallFindAnswers tweet_id;
            CallReplyToTweet tweet_id announcement_no_valid_wallet ])
       (S (S (S (S (w_ticks w)))))).
Proof.
  intros Hgid Htid Hclose Hdue Hfetch Hnoerr Hentries.
  rewrite (close_game_due _ _ _ _ _ Hgid Htid Hclose Hdue), Hfetch.
  unfold fetch_error. rewrite Hnoerr, Hentries.
  unfold mbind at 1 2 3 4. unfold M_bind at 1 2 3 4.
  unfold logging, lift, reply_to_tweet, record_call.
  cbn [w_store w_log w_calls w_ticks].
  rewrite (close_game_no_winner_run _ _ _ _ Hgid). cbn [w_store w_log w_calls w_ticks].
  unfold no_winner_closure. cbn [length]. by rewrite <- !app_assoc.
Qed.


(** The final step when the platform accepts the announcement. *)
Lemma announce_and_close_accepted (game : dict) (game_id : value)
    (valid_entries : list dict) (response : WinnerResponse) (w : world)
    (tweet_id : value) (winning_entry : dict) (author : gmap string atom) :
  game !! "tweet_id" = Some tweet_id →
  env_reply_to_tweet e (w_ticks w) tweet_id (closing_announcement response) !! "error"
    = None →
  winning_entry_of (reply_id (result response)) valid_entries = Ok winning_entry →
  as_dict (dict_get_or winning_entry "author" (VDict ∅)) = Ok author →
  announce_and_close e game game_id valid_entries (Structured response) w =
    (Ok tt,
     MkWorld
       (GameStore.set_first_match "game_id" game_id
          (<["updated_at" := VTime (env_now e (S (w_ticks w)))]>
             (winner_fields
                (dict_get (env_reply_to_tweet e (w_ticks w) tweet_id
                             (closing_announcement response)) "id")
                response winning_entry author))
          (w_store w))
       (w_log w ++
          [ (INFO, MsgGameUpdated game_id
                     (<["updated_at" := VTime (env_now e (S (w_ticks w)))]>
                        (winner_fields
                           (dict_get (env_reply_to_tweet e (w_ticks w) tweet_id
                                        (closing_announcement response)) "id")
                           response winning_entry author)));
            (INFO, MsgWinnerStored game_id) ])
       (w_calls w ++ [CallReplyToTweet tweet_id (closing_announcement response)])
       (S (S (w_ticks w)))).
Proof.
  intros Htid Hpost Hentry Hauthor.
  unfold announce_and_close, mbind, M_bind, lift, getitem. simpl.
  rewrite Htid. simpl. unfold has_key.
  rewrite bool_decide_eq_false_2 by (rewrite Hpost; by intros [? ?]).
  rewrite Hentry, Hauthor. simpl.
  unfold GameStore.update_game, mbind, M_bind, now, GameStore.update_one, logging. simpl.
  by rewrite <- app_assoc.
Qed.


Lemma winning_entry_unmatched (rid : string) (valid_entries : list dict) :
  Forall (fun entry : dict =>
            ∃ v, entry !! "reply_id" = Some v ∧ equals_str v rid = false) valid_entries →
  winning_entry_of rid valid_entries = Ok ∅.
Proof.
  induction 1 as [|entry l (v & Hv & Hneq) _ IH]; [done|].
  simpl. unfold getitem. rewrite Hv. simpl. by rewrite Hneq.
Qed.

(** X12. The verdict is not checked against the entries.  When it names
    a reply that no entry has, the game is closed all the same with the
    wallet of the verdict, and with an empty text, empty author fields
    and [verified] false. *)
Theorem verdict_naming_no_entry (game : dict) (game_id : value)
    (valid_entries : list dict) (response : WinnerResponse) (w : world)
    (tweet_id : value) :
  game !! "tweet_id" = Some tweet_id →
  env_reply_to_tweet e (w_ticks w) tweet_id (closing_announcement response) !! "error"
    = None →
  Forall (fun entry : dict =>
            ∃ v, entry !! "reply_id" = Some v
                 ∧ equals_str v (reply_id (result response)) = false) valid_entries →
  ∃ fields : dict,
    announce_and_close e game game_id valid_entries (Structured response) w =
      (Ok tt,
       MkWorld (GameStore.set_first_match "game_id" game_id fields (w_store w))
         (w_log w ++ [(INFO, MsgGameUpdated game_id fields); (INFO, MsgWinnerStored game_id)])
         (w_calls w ++ [CallReplyToTweet tweet_id (closing_announcement response)])
         (S (S (w_ticks w))))
    ∧ fields !! "status" = Some (VStr "closed")
    ∧ fields !! "winner_wallet" = Some (VStr (wallet (result response)))
    ∧ fields !! "winning_tweet_text" = Some (VStr "")
    ∧ fields !! "winner_username" = Some (VStr "")
    ∧ fields !! "winner_name" = Some (VStr "")
    ∧ fields !! "winner_image_url" = Some (VStr "")
    ∧ fields !! "winner_is_verified" = Some (VBool false).
Proof.
  intros Htid Hpost Hunmatched.
  exists (<["updated_at" := VTime (env_now e (S (w_ticks w)))]>
            (winner_fields
               (dict_get (env_reply_to_tweet e (w_ticks w) tweet_id
                            (closing_announcement response)) "id")
               response ∅ ∅)).
  split; [|by repeat split].
  apply announce_and_close_accepted; [done|done| |done].
  by apply winning_entry_unmatched.
Qed.

End Branches.

(** ** The sweep as a whole *)

Section SweepInvariants.

Import GameAgent.

Variable e : env.

Lemma record_evolves_refl (d : dict) : record_evolves d d.
Proof. split; [done | by left]. Qed.

Lemma record_evolves_trans (d1 d2 d3 : dict) :
  record_evolves d1 d2 → record_evolves d2 d3 → record_evolves d1 d3.
Proof.
  intros [Hk12 Hs12] [Hk23 Hs23]. split.
  - intros k Hk. by rewrite Hk23, Hk12.
  - destruct Hs23 as [->|Hclosed]; [done | by right].
Qed.

Lemma store_evolves_refl (s : list dict) : Forall2 record_evolves s s.
Proof. induction s; constructor; [apply record_evolves_refl | done]. Qed.

Lemma store_evolves_trans (s1 s2 s3 : list dict) :
  Forall2 record_evolves s1 s2 → Forall2 record_evolves s2 s3 →
  Forall2 record_evolves s1 s3.
Proof.
  intros H12; revert s3; induction H12 as [|d1 d2 s1 s2 Hd _ IH]; intros s3 H23.
  - by inversion H23.
  - inversion H23 as [|? d3 ? s3' Hd' Hs']; subst. constructor.
    + by eapply record_evolves_trans.
    + by apply IH.
Qed.

Lemma set_first_match_evolves k v (fields : dict) (s : list dict) :
  fields !! "status" = Some (VStr "closed") → dom fields ⊆ closure_keys →
  Forall2 record_evolves s (GameStore.set_first_match k v fields s).
Proof.
  intros Hstatus Hdom. induction s as [|d s IH]; simpl; [constructor|].
  destruct (GameStore.matches k v d).
  - constructor; [|apply store_evolves_refl]. split.
    + intros j Hj. apply lookup_union_r. apply not_elem_of_dom.
      intros Hin. apply Hj, Hdom, Hin.
    + right. by apply lookup_union_Some_l.
  - constructor; [apply record_evolves_refl | done].
Qed.

Lemma closure_update_evolves (game : dict) (s s' : list dict) :
  closure_update game s s' → Forall2 record_evolves s s'.
Proof. intros (gid & fields & _ & Hstatus & Hdom & ->). by apply set_first_match_evolves. Qed.

Lemma dom_no_winner_fields (post_announcement : dict) :
  dom (no_winner_fields post_announcement) ⊆ closure_keys.
Proof.
  unfold no_winner_fields, closure_keys. rewrite !dom_insert, dom_singleton.
  apply elem_of_subseteq. intros k. rewrite !elem_of_union, !elem_of_singleton. tauto.
Qed.

Lemma dom_winner_fields winner_tweet_id response winning_entry author :
  dom (winner_fields winner_tweet_id response winning_entry author) ⊆ closure_keys.
Proof.
  unfold winner_fields, closure_keys. rewrite !dom_insert, dom_singleton.
  apply elem_of_subseteq. intros k. rewrite !elem_of_union, !elem_of_singleton. tauto.
Qed.

Lemma update_step_update_game game game_id (fields : dict) :
  game !! "game_id" = Some game_id →
  fields !! "status" = Some (VStr "closed") → dom fields ⊆ closure_keys →
  store_step (closure_update game) (GameStore.update_game e game_id fields).
Proof.
  intros Hg Hstatus Hdom w. right.
  exists game_id, (<["updated_at" := VTime (env_now e (w_ticks w))]> fields).
  split; [done|]. split; [by rewrite lookup_insert_ne|]. split; [|done].
  rewrite dom_insert. apply union_least; [|done].
  unfold closure_keys. apply elem_of_subseteq. intros k.
  rewrite !elem_of_union, !elem_of_singleton. tauto.
Qed.

Lemma update_step_close_game_no_winner game post_announcement :
  store_step (closure_update game) (close_game_no_winner e game post_announcement).
Proof.
  unfold close_game_no_winner. apply step_bind_lift. intros game_id Hg%getitem_Ok.
  apply update_step_update_game; [done|done|apply dom_no_winner_fields].
Qed.

Lemma update_step_announce_and_close game game_id entries winner :
  game !! "game_id" = Some game_id →
  store_step (closure_update game) (announce_and_close e game game_id entries winner).
Proof.
  intros Hg. unfold announce_and_close.
  apply step_bind_lift; intros response _.
  apply step_bind_lift; intros tweet_id _.
  apply step_bind; [frames|]. intros post.
  destruct (has_key post "error").
  { apply step_keeps. frames. }
  apply step_bind_lift; intros entry _.
  apply step_bind_lift; intros author _.
  apply step_then_keeps; [|frames].
  apply update_step_update_game; [done|done|apply dom_winner_fields].
Qed.

Lemma update_step_close_game game : store_step (closure_update game) (close_game e game).
Proof.
  unfold close_game. apply step_bind; [apply keeps_not_due|]. intros [|].
  { apply step_keeps. frames. }
  unfold close_due_game.
  apply step_bind_lift; intros game_id Hg%getitem_Ok.
  apply step_bind; [frames|]. intros _.
  apply step_bind_lift; intros tweet_id _.
  apply step_bind; [frames|]. intros replies.
  destruct (fetch_error replies).
  { apply step_keeps. frames. }
  destruct replies as [|r0 rs].
  { apply step_bind; [frames|]. intros _.
    apply step_bind; [frames|]. intros post.
    apply update_step_close_game_no_winner. }
  apply step_bind; [frames|]. intros _.
  apply step_bind_lift; intros entries _.
  destruct entries as [|e0 es].
  { apply step_bind; [frames|]. intros _.
    apply step_bind; [frames|]. intros post.
    apply update_step_close_game_no_winner. }
  apply step_bind_lift; intros game_type _.
  apply step_bind; [apply keeps_select_winner_llm|]. intros winner.
  apply step_bind; [frames|]. intros _.
  by apply update_step_announce_and_close.
Qed.

(** X13. Whatever the collaborators answer, and whether it returns or
    raises, the close sweep adds no record and removes none; in every
    record the fields that a closure does not write (identifier, post,
    type, title, creation time, deadline) are as before; and a record is as
    before or has the status closed. *)
Theorem sweep_only_closes (w : world) :
  Forall2 record_evolves (w_store w) (w_store (snd (run_close_game_agent_task e w))).
Proof.
  unfold run_close_game_agent_task, mbind, M_bind.
  pose proof (init_world e w) as Hinit.
  destruct (GameStore.init e w) as [[[]|ex] w1]; simpl in Hinit; subst w1;
    [|apply store_evolves_refl].
  unfold GameStore.list_open_games, GameStore.find.
  apply (for_each_invariant (fun w' => Forall2 record_evolves (w_store w) (w_store w')));
    [|apply store_evolves_refl].
  intros g _ w1 Hw1.
  destruct (update_step_close_game g w1) as [->|Hupdate]; [done|].
  eapply store_evolves_trans; [exact Hw1|]. by eapply closure_update_evolves.
Qed.

Lemma for_each_raises {A} (body : A → M unit) (before_it : list A) (x : A)
    (after_it : list A) (w w1 w2 : world) (ex : exn) :
  for_each body before_it w = (Ok tt, w1) →
  body x w1 = (Raise ex, w2) →
  for_each body (before_it ++ x :: after_it) w = (Raise ex, w2).
Proof.
  revert w; induction before_it as [|y l IH]; intros w; simpl.
  - intros [= <-] Hx. unfold mbind, M_bind. by rewrite Hx.
  - unfold mbind, M_bind. destruct (body y w) as [[[]|ex'] w']; [|done].
    apply IH.
Qed.

(** X14. An exception raised by the closure of one game ends the sweep:
    the sweep raises it, and its world is the one that the closure of
    that game left, so that the open games listed after it are not
    visited in this sweep. *)
Theorem sweep_stops_at_first_exception (w w1 w2 : world) (before_it : list dict)
    (game : dict) (after_it : list dict) (ex : exn) :
  store_configured e →
  open_games_of w = before_it ++ game :: after_it →
  for_each (close_game e) before_it w = (Ok tt, w1) →
  close_game e game w1 = (Raise ex, w2) →
  run_close_game_agent_task e w = (Raise ex, w2).
Proof.
  intros Hconf Hopen Hbefore Hgame.
  unfold run_close_game_agent_task.
  erewrite bind_run by (by apply init_configured).
  erewrite bind_run by reflexivity.
  unfold open_games_of in Hopen. rewrite Hopen.
  by eapply for_each_raises.
Qed.

End SweepInvariants.

(** ** The creation of a game, continued *)

Section CreationMore.

Import GameAgent.

Variable e : env.

(** The last steps of the creation, after the deadline was computed:
    they call nothing, and when they raise they have stored nothing. *)
Lemma record_game_world (game_type : string) (tweet_id : value) (close_at : Z) (w : world) :
  let m := (logging INFO (MsgGamePosted game_type tweet_id close_at);;
            GameStore.init e;;
            game_id ← uuid4 e;
            GameStore.create_game e game_id tweet_id game_type close_at
              GameStore.default_status) in
  w_calls (snd (m w)) = w_calls w
  ∧ (∀ ex, fst (m w) = Raise ex → w_store (snd (m w)) = w_store w).
Proof.
  cbv zeta. unfold GameStore.init.
  destruct (env_getenv e "COSMOS_MONGO_URI") as [uri|]; [destruct (String.eqb uri "")|];
    (split; [reflexivity|]); intros ex Hex; try reflexivity.
  discriminate Hex.
Qed.

(** X15. However the creation of a game ends, it has called the
    platform exactly once, to post the announcement of one of the seven
    game types as [choose_game] composed it: the text ends with the
    placeholder [{result_time}] itself, since the placeholder is filled in
    after the post, in a text that is not sent. *)
Theorem posted_announcement_keeps_placeholder (w : world) :
  chosen_game_type e w ∈ GAME_TYPES
  ∧ w_calls (snd (run_create_game_agent_task e w)) =
      w_calls w ++
        [CallPostTweet (body_front (chosen_game_type e w) +:+ "{result_time}")].
Proof.
  assert (chosen_game_type e w ∈ GAME_TYPES) as Hin.
  { unfold chosen_game_type.
    assert (env_random e (w_ticks w) mod 7 < 7)%nat as Hlt
      by (apply Nat.mod_upper_bound; lia).
    apply (lookup_lt_is_Some_2 GAME_TYPES) in Hlt as [gt Hgt]. rewrite Hgt. simpl.
    by eapply list_elem_of_lookup_2. }
  split; [done|].
  rewrite <- (proj1 (body_rendering (chosen_game_type e w) "" Hin)).
  rewrite run_create_after_publish.
  destruct (has_key _ "error").
  { unfold mbind, M_bind, lift. by destruct (getitem _ _). }
  destruct (negb _); [done|].
  unfold mbind at 1. unfold M_bind at 1.
  destruct (game_deadline_world e (body_of (chosen_game_type e w)) (after_publish e w))
    as (_ & _ & Hcalls).
  destruct (game_deadline e _ (after_publish e w)) as [[[text close_at]|ex] w1];
    simpl in Hcalls; [|done].
  rewrite <- Hcalls.
  apply (record_game_world (chosen_game_type e w) (dict_get (post_result_of e w) "id")
           close_at w1).
Qed.

(** X16. When the creation of a game raises, the announcement has
    already been posted (the platform answered with a post identifier)
    and no record of the game is stored: the post is left without a
    game. *)
Theorem creation_raises_after_publishing (w : world) (ex : exn) :
  fst (run_create_game_agent_task e w) = Raise ex →
  publish_succeeded (post_result_of e w) = true
  ∧ last (w_calls (snd (run_create_game_agent_task e w))) =
      Some (CallPostTweet (body_of (chosen_game_type e w)))
  ∧ w_store (snd (run_create_game_agent_task e w)) = w_store w.
Proof.
  rewrite run_create_after_publish. unfold publish_succeeded.
  destruct (has_key (post_result_of e w) "error") eqn:Herr.
  { unfold has_key in Herr. apply bool_decide_eq_true in Herr as [v Hv].
    unfold mbind, M_bind, lift, getitem. rewrite Hv. done. }
  destruct (truthy (dict_get (post_result_of e w) "id")); [|done].
  change (negb true) with false. cbv iota.
  destruct (game_deadline_world e (body_of (chosen_game_type e w)) (after_publish e w))
    as (Hstore & _ & Hcalls).
  destruct (game_deadline e _ (after_publish e w)) as [[[text close_at]|ex'] w1] eqn:Hdeadline;
    simpl in Hstore, Hcalls.
  - rewrite (bind_run _ _ _ _ _ Hdeadline). cbv beta iota.
    destruct (record_game_world (chosen_game_type e w)
                (dict_get (post_result_of e w) "id") close_at w1) as [Hc Hs].
    cbv zeta in Hc, Hs. intros Hraise.
    rewrite Hc, (Hs ex Hraise), Hcalls, Hstore. simpl. by rewrite last_snoc.
  - rewrite (bind_raise _ _ _ _ _ Hdeadline).
    intros _. simpl. rewrite Hcalls, Hstore. simpl. by rewrite last_snoc.
Qed.

End CreationMore.

(** ** The length of an address *)

Section AddressLength.

Import Utils.

Lemma index_from_bounds (c : ascii) (s : string) :
  ∀ (i d : N), Base58.index_from i c s = Some d →
    (i ≤ d < i + N.of_nat (String.length s))%N.
Proof.
  induction s as [|a r IH]; intros i d; simpl; [done|].
  destruct (Ascii.eqb a c).
  - intros [= <-]. lia.
  - intros H%IH. lia.
Qed.

Lemma index_from_first (i : N) (c a : ascii) (r : string) :
  Base58.index_from i c (String a r) = Some i → a = c.
Proof.
  cbn [Base58.index_from].
  destruct (Ascii.eqb a c) eqn:Heq; [by apply Ascii.eqb_eq in Heq|].
  intros H%index_from_bounds. lia.
Qed.

Lemma digit_bounds (c : ascii) (d : N) :
  Base58.digit c = Some d → (d < 58)%N ∧ (d = 0%N → c = "1"%char).
Proof.
  unfold Base58.digit. intros Hd. split.
  - apply index_from_bounds in Hd.
    change (N.of_nat (String.length Base58.alphabet)) with 58%N in Hd. lia.
  - intros ->. symmetry. exact (index_from_first 0 c _ _ Hd).
Qed.

Lemma b58decode_int_from_bounds (s : string) :
  ∀ (acc v : N), Base58.b58decode_int_from acc s = Some v →
    (acc * 58 ^ N.of_nat (String.length s) ≤ v
     < (acc + 1) * 58 ^ N.of_nat (String.length s))%N.
Proof.
  induction s as [|c r IH]; intros acc v; simpl String.length.
  - simpl. intros [= <-]. lia.
  - simpl Base58.b58decode_int_from.
    destruct (Base58.digit c) as [d|] eqn:Hd; [|done].
    apply digit_bounds in Hd as [Hd _]. intros Hv%IH.
    rewrite Nat2N.inj_succ, N.pow_succ_r'. nia.
Qed.

Lemma be_bytes_acc (fuel : nat) :
  ∀ (n : N) (acc : list Byte.byte), (length acc ≤ length (Base58.be_bytes fuel n acc))%nat.
Proof.
  induction fuel as [|f IH]; intros n acc; simpl; [done|].
  destruct (n =? 0)%N; [done|].
  etransitivity; [|apply IH]. simpl. lia.
Qed.

Lemma be_bytes_upper (fuel : nat) :
  ∀ (k : nat) (n : N) (acc : list Byte.byte),
    (n < 256 ^ N.of_nat k)%N →
    (length (Base58.be_bytes fuel n acc) ≤ length acc + k)%nat.
Proof.
  induction fuel as [|f IH]; intros k n acc Hn; simpl; [lia|].
  destruct (n =? 0)%N eqn:Hz; [lia|]. apply N.eqb_neq in Hz.
  destruct k as [|k]; [simpl in Hn; lia|].
  rewrite Nat2N.inj_succ, N.pow_succ_r' in Hn.
  assert (n / 256 < 256 ^ N.of_nat k)%N as Hq by (apply N.Div0.div_lt_upper_bound; lia).
  specialize (IH k _ (Base58.byte_of_N n :: acc) Hq). simpl in IH. lia.
Qed.

Lemma be_bytes_lower (k : nat) :
  ∀ (fuel : nat) (n : N) (acc : list Byte.byte),
    (256 ^ N.of_nat k ≤ n)%N → (k < fuel)%nat →
    (length acc + k + 1 ≤ length (Base58.be_bytes fuel n acc))%nat.
Proof.
  induction k as [|k IH]; intros fuel n acc Hn Hfuel;
    (destruct fuel as [|f]; [lia|]); simpl Base58.be_bytes.
  - simpl in Hn. destruct (n =? 0)%N eqn:Hz; [apply N.eqb_eq in Hz; lia|].
    pose proof (be_bytes_acc f (n / 256) (Base58.byte_of_N n :: acc)) as Hacc.
    simpl in Hacc. lia.
  - rewrite Nat2N.inj_succ, N.pow_succ_r' in Hn.
    assert (0 < 256 ^ N.of_nat k)%N as Hpos by (apply N.neq_0_lt_0, N.pow_nonzero; lia).
    destruct (n =? 0)%N eqn:Hz; [apply N.eqb_eq in Hz; lia|].
    assert (256 ^ N.of_nat k ≤ n / 256)%N as Hq by (apply N.div_le_lower_bound; lia).
    specialize (IH f _ (Base58.byte_of_N n :: acc) Hq ltac:(lia)). simpl in IH. lia.
Qed.

Lemma size_lower (k : nat) (n : N) :
  (256 ^ N.of_nat k ≤ n)%N → (k < N.to_nat (N.size n))%nat.
Proof.
  intros Hn.
  assert (0 < 256 ^ N.of_nat k)%N as Hpos by (apply N.neq_0_lt_0, N.pow_nonzero; lia).
  assert (n ≠ 0%N) as Hne by lia.
  rewrite (N.size_log2 n Hne).
  assert (8 * N.of_nat k ≤ N.log2 n)%N as Hlog.
  { apply N.log2_le_pow2; [lia|].
    rewrite N.pow_mul_r. by change (2 ^ 8)%N with 256%N. }
  lia.
Qed.

(** A number that takes 32 bytes. *)
Lemma int_to_bytes_32 (v : N) :
  length (Base58.int_to_bytes v) = 32%nat → (256 ^ 31 ≤ v < 256 ^ 32)%N.
Proof.
  unfold Base58.int_to_bytes. intros Hlen. split.
  - destruct (N.le_gt_cases (256 ^ 31) v) as [|Hlt]; [done|].
    pose proof (be_bytes_upper (N.to_nat (N.size v)) 31 v [] Hlt) as Hup.
    simpl length in Hup. lia.
  - destruct (N.le_gt_cases (256 ^ 32) v) as [Hge|]; [|done].
    pose proof (be_bytes_lower 32 (N.to_nat (N.size v)) v [] Hge (size_lower 32 v Hge)) as Hlo.
    simpl length in Hlo. lia.
Qed.

Lemma strip_ones_other (c : ascii) (r : string) :
  c ≠ "1"%char → Base58.strip_ones (String c r) = (0%nat, String c r).
Proof. intros Hc. destruct c as [[] [] [] [] [] [] [] []]; try reflexivity. done. Qed.

Lemma starts_with_one (c : ascii) (r : string) :
  PyStr.starts_with "1" (String c r) = false → c ≠ "1"%char.
Proof. intros H ->. done. Qed.

(** What [is_address] accepts, when it does not start with a [1] and has
    no white space at its end. *)
Lemma is_address_length (a : string) :
  is_address a = true → PyStr.rstrip a = a → PyStr.starts_with "1" a = false →
  (43 ≤ String.length a ≤ 44)%nat.
Proof.
  unfold is_address, Base58.b58decode. intros Haddr Hstrip Hone.
  rewrite Hstrip in Haddr.
  destruct a as [|c r]; [done|].
  apply starts_with_one in Hone.
  rewrite (strip_ones_other c r Hone) in Haddr.
  unfold Base58.b58decode_int in Haddr. simpl Base58.b58decode_int_from in Haddr.
  destruct (Base58.digit c) as [d|] eqn:Hd; [|done].
  destruct (digit_bounds c d Hd) as [Hd58 Hd0].
  assert (1 ≤ d)%N as Hd1 by (destruct (N.eq_dec d 0%N) as [Hz%Hd0|]; [done|lia]).
  destruct (Base58.b58decode_int_from (0 * 58 + d) r) as [v|] eqn:Hv; [|done].
  apply b58decode_int_from_bounds in Hv.
  simpl in Haddr. apply Nat.eqb_eq, int_to_bytes_32 in Haddr.
  set (n := String.length r) in *. simpl String.length.
  assert (0 < 58 ^ N.of_nat n)%N as Hpos by (apply N.neq_0_lt_0, N.pow_nonzero; lia).
  assert (58 ^ N.of_nat n ≤ v < 58 * 58 ^ N.of_nat n)%N as Hv' by nia.
  split.
  - destruct (Nat.le_gt_cases 42 n) as [|Hlt]; [lia|].
    assert (58 ^ N.of_nat n ≤ 58 ^ 41)%N as Hle by (apply N.pow_le_mono_r; lia).
    assert (58 * 58 ^ 41 < 256 ^ 31)%N as Hc by (vm_compute; reflexivity).
    lia.
  - destruct (Nat.le_gt_cases n 43) as [|Hgt]; [lia|].
    assert (58 ^ 44 ≤ 58 ^ N.of_nat n)%N as Hle by (apply N.pow_le_mono_r; lia).
    assert (256 ^ 32 < 58 ^ 44)%N as Hc by (vm_compute; reflexivity).
    lia.
Qed.

(** X17. An address that [extract_solana_addresses] returns and that
    does not start with the digit [1] has 43 or 44 characters: of the
    candidates of 32 to 42 characters that the pattern lets through, only
    those with leading [1]s can decode to 32 bytes. *)
Theorem extracted_address_length (text a : string) :
  a ∈ extract_solana_addresses text →
  PyStr.starts_with "1" a = false →
  (43 ≤ String.length a ≤ 44)%nat.
Proof.
  intros [Hfind Haddr]%extract_solana_addresses_spec Hone.
  destruct (findall_from_sound _ _ _ _ Hfind) as (_ & Hall & _).
  apply is_address_length; [done | by apply rstrip_class | done].
Qed.

End AddressLength.

(** ** The tweets of the mock *)

Section Mock.

Import Utils MockTools.

Lemma take_class_stops (n : nat) (p s : string) :
  (String.length (take_class n p) < String.length p)%nat →
  take_class n (p +:+ s) = take_class n p.
Proof.
  revert n; induction p as [|c p IH]; intros n; simpl; [lia|].
  destruct n as [|n]; [done|]. rewrite append_cons. simpl.
  destruct (address_char c); [|done]. simpl. intros H. rewrite IH; [done|lia].
Qed.

Lemma match_here_short (before : option ascii) (s : string) :
  (String.length (take_class max_len s) < min_len)%nat → match_here before s = None.
Proof.
  intros Hlen. unfold match_here. destruct (word_boundary _ _); [|done].
  by apply Nat.leb_gt in Hlen as ->.
Qed.

(** The search goes through a text without candidate and starts after
    it. *)
Lemma findall_from_no_candidate (p s : string) :
  no_candidate p = true →
  ∀ before, findall_from 0 before (p +:+ s) = findall_from 0 (last_char before p) s.
Proof.
  induction p as [|c p IH]; intros Hp before; [done|].
  change (no_candidate (String c p))
    with ((String.length (take_class max_len (String c p))
             <? Nat.min min_len (String.length (String c p)))%nat
          && no_candidate p) in Hp.
  apply andb_true_iff in Hp as [Hrun Hp].
  apply Nat.ltb_lt in Hrun.
  assert (match_here before (String c p +:+ s) = None) as Hnone.
  { apply match_here_short. rewrite take_class_stops; lia. }
  rewrite append_cons. simpl findall_from. rewrite <- append_cons, Hnone.
  simpl. by apply IH.
Qed.

Lemma all_chars_impl (p q : ascii → bool) (s : string) :
  (∀ c, p c = true → q c = true) → all_chars p s = true → all_chars q s = true.
Proof.
  intros Hpq. induction s as [|c s IH]; [done|]. simpl.
  intros [Hc Hs]%andb_true_iff. by rewrite (Hpq c Hc), IH.
Qed.

Lemma all_chars_get (p : ascii → bool) (s : string) :
  all_chars p s = true → ∀ i c, String.get i s = Some c → p c = true.
Proof.
  induction s as [|a s IH]; [done|]. simpl.
  intros [Ha Hs]%andb_true_iff [|i] c; [by intros [= <-] | by apply IH].
Qed.

Lemma all_chars_append (p : ascii → bool) (a b : string) :
  all_chars p (a +:+ b) = all_chars p a && all_chars p b.
Proof.
  induction a as [|x a IH]; [done|]. rewrite append_cons. simpl.
  by rewrite IH, andb_assoc.
Qed.

Lemma all_chars_of_list (p : ascii → bool) (l : list ascii) :
  Forall (fun c => p c = true) l → all_chars p (string_of_list_ascii l) = true.
Proof. induction 1 as [|c l Hc _ IH]; [done|]. simpl. by rewrite Hc, IH. Qed.

Lemma length_of_list (l : list ascii) : String.length (string_of_list_ascii l) = length l.
Proof. induction l as [|c l IH]; [done|]. simpl. by rewrite IH. Qed.

(** The letters and digits are word characters and no white space. *)
Lemma population_alnum :
  all_chars (fun c => PyStr.is_word c && negb (PyStr.is_space c))
    (ascii_letters +:+ digits) = true.
Proof. vm_compute. reflexivity. Qed.

Lemma get_in_range (s : string) :
  ∀ n, (n < String.length s)%nat → is_Some (String.get n s).
Proof.
  induction s as [|a s IH]; intros n; simpl; [lia|].
  destruct n as [|n]; [by eexists|]. intros Hlt. apply IH. lia.
Qed.

Lemma generate_wallet_chars (rand : nat → nat) :
  all_chars (fun c => PyStr.is_word c && negb (PyStr.is_space c)) (generate_wallet rand) = true.
Proof.
  unfold generate_wallet. rewrite all_chars_append. apply andb_true_iff. split; [done|].
  apply all_chars_of_list. unfold random_choices. apply Forall_map, Forall_forall.
  intros i _. cbv beta. unfold char_at.
  destruct (get_in_range (ascii_letters +:+ digits)
              (rand i mod String.length (ascii_letters +:+ digits))%nat) as [c Hget].
  { apply Nat.mod_upper_bound. vm_compute. lia. }
  rewrite Hget. simpl. by apply (all_chars_get _ _ population_alnum _ _ Hget).
Qed.

Lemma generate_wallet_length (rand : nat → nat) :
  String.length (generate_wallet rand) = 42%nat.
Proof.
  unfold generate_wallet. rewrite length_append, length_of_list.
  unfold random_choices. by rewrite length_map, length_seq.
Qed.

Lemma rstrip_no_space (s : string) :
  all_chars (fun c => negb (PyStr.is_space c)) s = true → PyStr.rstrip s = s.
Proof.
  induction s as [|c s IH]; [done|]. simpl.
  intros [Hc%negb_true_iff Hs]%andb_true_iff. rewrite (IH Hs).
  destruct s; [by rewrite Hc | done].
Qed.

(** The decoding of a generated wallet never gives 32 bytes. *)
Lemma generate_wallet_rejected (rand : nat → nat) : is_address (generate_wallet rand) = false.
Proof.
  destruct (is_address (generate_wallet rand)) eqn:Haddr; [|done].
  apply is_address_length in Haddr.
  - rewrite generate_wallet_length in Haddr. lia.
  - apply rstrip_no_space. eapply all_chars_impl; [|apply generate_wallet_chars].
    by intros c [_ ?]%andb_true_iff.
  - unfold generate_wallet. by rewrite !append_cons.
Qed.

Lemma last_char_word (d : option ascii) (s : string) :
  s ≠ "" → all_chars PyStr.is_word s = true → word_opt (last_char d s) = true.
Proof.
  revert d; induction s as [|c s IH]; intros d Hne Hall; [done|].
  simpl in Hall. apply andb_true_iff in Hall as [Hc Hs]. simpl.
  destruct s as [|c' s']; [done|]. by apply IH.
Qed.

(** In a word, the only candidate is the word. *)
Lemma findall_word (before : option ascii) (s m : string) :
  all_chars PyStr.is_word s = true →
  m ∈ findall_from 0 before s → m = s.
Proof.
  intros Hall Hm.
  destruct (findall_from_delimited _ _ _ _ Hm) as (pre & post & -> & Hpre & Hpost).
  rewrite !all_chars_append in Hall.
  apply andb_true_iff in Hall as [Hallpre [_ Hallpost]%andb_true_iff].
  destruct pre as [|x pre].
  - destruct post as [|y post]; [by rewrite append_empty_r|].
    simpl in Hallpost, Hpost. apply andb_true_iff in Hallpost as [Hy _]. congruence.
  - rewrite last_char_word in Hpre; done.
Qed.

(** X18. No tweet of [search_tweets_mock] holds a wallet that
    [extract_solana_addresses] accepts: whatever the draws, the text made
    of one of the jokes and a generated wallet (two letters and forty
    letters or digits) gives the empty set, since 42 characters that do
    not start with [1] never decode to 32 bytes. *)
Theorem mock_tweets_hold_no_address (joke : string) (rand : nat → nat) :
  joke ∈ jokes →
  extract_solana_addresses (tweet_text joke (generate_wallet rand)) = [].
Proof.
  intros Hjoke.
  destruct (extract_solana_addresses _) as [|a rest] eqn:Hextract; [done|].
  exfalso.
  assert (a ∈ extract_solana_addresses (tweet_text joke (generate_wallet rand))) as Ha
    by (rewrite Hextract; apply list_elem_of_here).
  apply extract_solana_addresses_spec in Ha as [Hfind Haddr].
  assert (a = generate_wallet rand) as ->; [|by rewrite generate_wallet_rejected in Haddr].
  unfold findall, tweet_text in Hfind. rewrite <- append_assoc in Hfind.
  assert (no_candidate (joke +:+ " #BestJokeChallenge Wallet: ") = true) as Hnone.
  { unfold jokes in Hjoke. rewrite !elem_of_cons, elem_of_nil in Hjoke.
    destruct Hjoke as [->|[->|[->|[->|[->|[]]]]]]; vm_compute; done. }
  rewrite (findall_from_no_candidate _ _ Hnone) in Hfind.
  eapply findall_word; [|exact Hfind].
  eapply all_chars_impl; [|apply generate_wallet_chars].
  by intros c [? _]%andb_true_iff.
Qed.

End Mock.

(** ** What the tools answer *)

Section ToolResults.

Import Tools.

Lemma prefixed_message (c : ascii) (p msg : string) : String c p +:+ msg ≠ "".
Proof. by rewrite append_cons. Qed.

Lemma success_dict_shape (tweet_data r : dict) :
  success_dict tweet_data = Ok r →
  r !! "error" = None
  ∧ is_Some (r !! "id")
  ∧ r !! "id" = tweet_data !! "id"
  ∧ r !! "text" = tweet_data !! "text"
  ∧ r !! "status" = Some (VStr "success").
Proof.
  unfold success_dict, getitem, mbind, outcome_bind, mret, outcome_ret.
  destruct (tweet_data !! "id") as [id|]; [|done].
  destruct (tweet_data !! "text") as [text|]; [|done].
  intros [= <-]. by repeat split.
Qed.

(** The answer to a post that the platform created. *)
Lemma created_answer (tweet_data : dict) (wrapped : exn → dict) (prefix : string) :
  prefix ≠ "" →
  (∀ ex, wrapped ex = error_dict (prefix +:+ str_of_exn ex)) →
  let r := match success_dict tweet_data with
           | Ok r => r
           | Raise ex => wrapped ex
           end in
  (∃ message, message ≠ "" ∧ r = error_dict message)
  ∨ (r !! "error" = None
     ∧ is_Some (r !! "id")
     ∧ r !! "id" = tweet_data !! "id"
     ∧ r !! "text" = tweet_data !! "text"
     ∧ r !! "status" = Some (VStr "success")).
Proof.
  intros Hprefix Hwrapped. cbv zeta.
  destruct (success_dict tweet_data) as [r|ex] eqn:Hr.
  - right. by apply success_dict_shape.
  - left. exists (prefix +:+ str_of_exn ex). split; [|apply Hwrapped].
    destruct prefix; [done | apply prefixed_message].
Qed.

(** X19. [post_tweet] answers with one of two dictionaries, whatever
    the configuration and the platform: an error, that is the single
    key [error] with a message that is not empty; or a post, without
    the key [error], with the identifier and the text that the platform
    returned and the status [success].  So the test of the key [error]
    by the callers tells the two apart, and an answer that passes it
    has an identifier. *)
Theorem post_tweet_answer (configuration : Configuration)
    (create_tweet : string → api (option dict)) (text : string) :
  let r := post_tweet configuration create_tweet text in
  (∃ message, message ≠ "" ∧ r = error_dict message)
  ∨ (∃ response_data tweet_data,
       create_tweet text = Returns response_data
       ∧ data_present response_data = Some tweet_data
       ∧ r !! "error" = None
       ∧ is_Some (r !! "id")
       ∧ r !! "id" = tweet_data !! "id"
       ∧ r !! "text" = tweet_data !! "text"
       ∧ r !! "status" = Some (VStr "success")).
Proof.
  cbv zeta. unfold post_tweet.
  destruct (negb _); [left; eexists; split; [|reflexivity]; done|].
  destruct (create_tweet text) as [response_data|msg|msg] eqn:Hcreate.
  - destruct (data_present response_data) as [tweet_data|] eqn:Hdata;
      [|left; eexists; split; [|reflexivity]; done].
    destruct (created_answer tweet_data
                (fun ex => error_dict ("Failed to post tweet: " +:+ str_of_exn ex))
                "Failed to post tweet: " ltac:(done) ltac:(done)) as [Herror|Hpost].
    + by left.
    + right. by exists response_data, tweet_data.
  - left. eexists. split; [|reflexivity]. apply prefixed_message.
  - left. eexists. split; [|reflexivity]. apply prefixed_message.
Qed.

(** X20. [reply_to_tweet] answers in the same two ways: an error with a
    message that is not empty, or the reply that the platform created,
    without the key [error]. *)
Theorem reply_to_tweet_answer (configuration : Configuration)
    (create_tweet : string → value → api (option dict)) (tweet_id : value)
    (text : string) :
  let r := reply_to_tweet configuration create_tweet tweet_id text in
  (∃ message, message ≠ "" ∧ r = error_dict message)
  ∨ (∃ response_data tweet_data,
       create_tweet text tweet_id = Returns response_data
       ∧ data_present response_data = Some tweet_data
       ∧ r !! "error" = None
       ∧ is_Some (r !! "id")
       ∧ r !! "id" = tweet_data !! "id"
       ∧ r !! "text" = tweet_data !! "text"
       ∧ r !! "status" = Some (VStr "success")).
Proof.
  cbv zeta. unfold reply_to_tweet.
  destruct (negb _); [left; eexists; split; [|reflexivity]; done|].
  destruct (create_tweet text tweet_id) as [response_data|msg|msg] eqn:Hcreate.
  - destruct (data_present response_data) as [tweet_data|] eqn:Hdata;
      [|left; eexists; split; [|reflexivity]; done].
    destruct (created_answer tweet_data
                (fun ex => error_dict ("Failed to reply to tweet: " +:+ str_of_exn ex))
                "Failed to reply to tweet: " ltac:(done) ltac:(done)) as [Herror|Hpost].
    + by left.
    + right. by exists response_data, tweet_data.
  - left. eexists. split; [|reflexivity]. apply prefixed_message.
  - left. eexists. split; [|reflexivity]. apply prefixed_message.
Qed.

Lemma fetch_error_of_message (message : string) :
  message ≠ "" → GameAgent.fetch_error [error_dict message] = Some (VStr message).
Proof.
  intros Hne. unfold GameAgent.fetch_error, error_dict, dict_get.
  rewrite lookup_singleton_eq. simpl.
  by destruct message.
Qed.

(** X21. A fetch of the replies that fails is recognised by the close
    sweep: when the bearer token is not configured, or the search
    raises, [find_answers_with_conversation_id] returns a list whose first
    element carries a message that is not empty, which is what
    [run_close_game_agent_task] tests before it skips the game. *)
Theorem fetch_failure_is_recognised (configuration : Configuration)
    (search_recent_tweets : value → api SearchResponse) (root_id : value) :
  is_set (twitter_bearer_token configuration) = false
  ∨ (∃ msg, search_recent_tweets root_id = RaisesTweepy msg)
  ∨ (∃ msg, search_recent_tweets root_id = RaisesOther msg) →
  ∃ message,
    message ≠ ""
    ∧ GameAgent.fetch_error
        (find_answers_with_conversation_id configuration search_recent_tweets root_id)
      = Some (VStr message).
Proof.
  intros Hfail. unfold find_answers_with_conversation_id.
  destruct (is_set (twitter_bearer_token configuration)); simpl negb; cbv iota.
  - destruct Hfail as [|[[msg ->]|[msg ->]]]; [done| |];
      (eexists; split; [|apply fetch_error_of_message]; apply prefixed_message).
  - eexists. split; [|by apply fetch_error_of_message]. done.
Qed.

End ToolResults.

(** ** The chat model *)

Section ChatModels.

Import ChatModel.

Lemma split_once_slash (provider model : string) :
  no_slash provider = true →
  split_once (provider +:+ "/" +:+ model) = Some (provider, model).
Proof.
  unfold no_slash. induction provider as [|c p IH]; [done|].
  simpl all_chars. intros [Hc Hp]%andb_true_iff. apply negb_true_iff in Hc.
  rewrite append_cons. simpl split_once. by rewrite Hc, (IH Hp).
Qed.

Lemma split_once_none (name : string) : no_slash name = true → split_once name = None.
Proof.
  unfold no_slash. induction name as [|c r IH]; [done|].
  simpl. intros [Hc Hr]%andb_true_iff. apply negb_true_iff in Hc.
  by rewrite Hc, (IH Hr).
Qed.

(** X22. [load_chat_model] never uses the model of the name: two names
    with the same provider load the same client, and with a provider
    other than [azure] (in any case of the letters) the client is
    [ChatOpenAI] for [gpt-4o], whatever model the name asks for. *)
Theorem load_chat_model_ignores_model (getenv : string → option string)
    (provider model other_model : string) :
  no_slash provider = true →
  load_chat_model getenv (provider +:+ "/" +:+ model)
  = load_chat_model getenv (provider +:+ "/" +:+ other_model)
  ∧ (is_azure provider = false →
     load_chat_model getenv (provider +:+ "/" +:+ model) = Ok (ChatOpenAI "gpt-4o" 0 2)).
Proof.
  intros Hprovider. unfold load_chat_model.
  rewrite !split_once_slash by done. split; [done|]. by intros ->.
Qed.

(** X23. A name without slash loads nothing: [load_chat_model] raises
    [ValueError], before it looks at the environment. *)
Theorem load_chat_model_needs_slash (getenv : string → option string) (name : string) :
  no_slash name = true → load_chat_model getenv name = Raise ValueError.
Proof. intros Hname. unfold load_chat_model. by rewrite split_once_none. Qed.

End ChatModels.

(** ** The check at startup *)

Section Startup.

Import Tools RunScheduler.

Lemma one_element {A} (a b : A) : [a] = [b] → a = b.
Proof. by intros [= ->]. Qed.

Lemma nothing_missing (getenv : string → option string) :
  missing_vars getenv = [] →
  Forall (fun var => is_set (getenv var) = true) required_env_vars.
Proof.
  unfold missing_vars. generalize required_env_vars.
  intros vars; induction vars as [|var vars IH]; [constructor|].
  simpl. destruct (is_set (getenv var)) eqn:Hset; simpl; [|done].
  intros Hrest. constructor; [done | by apply IH].
Qed.

(** X24. The check of the environment at startup covers the
    credentials that the tools of the game agent ask for: when no
    required variable is missing, the configuration that [main] builds
    never makes [post_tweet] or [reply_to_tweet] answer that the
    credentials are not configured, and [find_answers_with_conversation_id]
    goes on to the search. *)
Theorem startup_check_covers_credentials (getenv : string → option string)
    (create_tweet : string → api (option dict))
    (create_reply : string → value → api (option dict))
    (search_recent_tweets : value → api SearchResponse)
    (text : string) (tweet_id : value) :
  missing_vars getenv = [] →
  post_tweet (configuration_of getenv) create_tweet text
    ≠ error_dict "Twitter OAuth credentials not configured"
  ∧ reply_to_tweet (configuration_of getenv) create_reply tweet_id text
    ≠ error_dict "Twitter OAuth credentials not configured"
  ∧ ((∀ response, search_recent_tweets tweet_id ≠ Returns response) →
     find_answers_with_conversation_id (configuration_of getenv) search_recent_tweets
       tweet_id
     ≠ [error_dict "Twitter bearer token not configured"]).
Proof.
  intros Hmissing%nothing_missing.
  unfold required_env_vars in Hmissing.
  repeat (apply Forall_cons in Hmissing as [? Hmissing]).
  unfold post_tweet, reply_to_tweet, find_answers_with_conversation_id, configuration_of.
  simpl twitter_api_key. simpl twitter_api_secret. simpl twitter_access_token.
  simpl twitter_access_token_secret. simpl twitter_bearer_token.
  repeat match goal with H : is_set _ = true |- _ => rewrite H; clear H end.
  simpl negb. cbv iota.
  assert (∀ a b : string, a ≠ b → error_dict a ≠ error_dict b) as Hmessage.
  { intros a b Hab Heq. apply Hab.
    apply (f_equal (fun d : dict => d !! "error")) in Heq.
    unfold error_dict in Heq. rewrite !lookup_singleton_eq in Heq. congruence. }
  assert (∀ tweet_data prefix,
            match success_dict tweet_data with
            | Ok r => r
            | Raise ex => error_dict (String "F" prefix +:+ str_of_exn ex)
            end ≠ error_dict "Twitter OAuth credentials not configured") as Hcreated.
  { intros tweet_data prefix.
    destruct (success_dict tweet_data) as [r|ex] eqn:Hr.
    - apply success_dict_shape in Hr as [Herror _]. intros ->.
      unfold error_dict in Herror. by rewrite lookup_singleton_eq in Herror.
    - apply Hmessage. by rewrite append_cons. }
  split; [|split].
  - destruct (create_tweet text) as [response_data|msg|msg].
    + destruct (data_present response_data); [apply Hcreated | by apply Hmessage].
    + apply Hmessage. by rewrite !append_cons.
    + apply Hmessage. by rewrite !append_cons.
  - destruct (create_reply text tweet_id) as [response_data|msg|msg].
    + destruct (data_present response_data); [apply Hcreated | by apply Hmessage].
    + apply Hmessage. by rewrite !append_cons.
    + apply Hmessage. by rewrite !append_cons.
  - intros Hraises.
    destruct (search_recent_tweets tweet_id) as [response|msg|msg].
    + by destruct (Hraises response).
    + intros Heq%one_element. revert Heq. apply Hmessage. by rewrite !append_cons.
    + intros Heq%one_element. revert Heq. apply Hmessage. by rewrite !append_cons.
Qed.

End Startup.

(** ** The further properties at the scenarios *)

Section MoreExamples.

Import GameAgent Scenario Scenario2.

Lemma extracted_addresses_are_delimited_witness :
  ∃ pre post,
    "pay " +:+ wrapped_sol +:+ " or else " +:+ system_program = pre +:+ wrapped_sol +:+ post
    ∧ Utils.word_opt (Utils.last_char None pre) = false
    ∧ Utils.word_opt (Utils.head_char post) = false.
Proof.
  apply (extracted_addresses_are_delimited
           ("pay " +:+ wrapped_sol +:+ " or else " +:+ system_program) wrapped_sol).
  vm_compute. apply list_elem_of_here.
Defined.

Lemma delimited_address_is_extracted_witness :
  wrapped_sol ∈ Utils.extract_solana_addresses ("wallet: " +:+ wrapped_sol +:+ "!").
Proof.
  apply (delimited_address_is_extracted "wallet: " wrapped_sol "!");
    [|reflexivity|reflexivity].
  split; [reflexivity|]. split; [vm_compute; lia|].
  eexists. split; [vm_compute; reflexivity | reflexivity].
Defined.

Lemma candidates_always_decode_witness :
  ∃ payload,
    Base58.b58decode system_program = Some payload
    ∧ (system_program
         ∈ Utils.extract_solana_addresses
             ("pay " +:+ wrapped_sol +:+ " or else " +:+ system_program)
       ↔ length payload = 32%nat).
Proof.
  apply (candidates_always_decode
           ("pay " +:+ wrapped_sol +:+ " or else " +:+ system_program) system_program).
  vm_compute. apply list_elem_of_further, list_elem_of_here.
Defined.

Lemma short_text_has_no_address_witness :
  Utils.extract_solana_addresses "gm, no wallet here" = [].
Proof. apply (short_text_has_no_address "gm, no wallet here"). vm_compute. lia. Defined.

Lemma update_game_unknown_id_witness :
  GameStore.update_game winner_announced (VStr "no-such-game")
    {[ "status" := VStr "closed" ]} start =
    (Ok tt,
     MkWorld (w_store start)
       (w_log start ++
          [(INFO, MsgGameUpdated (VStr "no-such-game")
                    (<["updated_at" := VTime (env_now winner_announced (w_ticks start))]>
                       {[ "status" := VStr "closed" ]}))])
       (w_calls start) (S (w_ticks start))).
Proof.
  apply (update_game_unknown_id winner_announced (VStr "no-such-game")
           {[ "status" := VStr "closed" ]} start).
  repeat constructor.
Defined.

Lemma update_game_first_match_witness :
  ∃ d',
    w_store (snd (GameStore.update_game winner_announced (VStr "6f1c2a9e-game")
                    {[ "status" := VStr "closed" ]} start))
      = <[1%nat := d']> (w_store start)
    ∧ d' !! "updated_at" = Some (VTime new_year)
    ∧ d' !! "status" = Some (VStr "closed")
    ∧ d' !! "tweet_id" = game !! "tweet_id".
Proof.
  destruct (update_game_first_match winner_announced (VStr "6f1c2a9e-game")
              {[ "status" := VStr "closed" ]} start 1 game)
    as (d' & Hstore & Hupdated & Hgiven & Hkept); [reflexivity | reflexivity | |].
  - intros [|j] d' Hj; [|lia]. intros [= <-]. reflexivity.
  - exists d'. split; [exact Hstore|]. split; [exact Hupdated|]. split.
    + apply Hgiven; [discriminate | reflexivity].
    + apply Hkept; [discriminate | reflexivity].
Defined.

Lemma close_game_not_due_witness :
  fst (close_game winner_announced later_game start) = Ok tt
  ∧ w_store (snd (close_game winner_announced later_game start)) = w_store start
  ∧ w_log (snd (close_game winner_announced later_game start)) = w_log start
  ∧ w_calls (snd (close_game winner_announced later_game start)) = w_calls start.
Proof.
  apply (close_game_not_due winner_announced later_game start).
  right. exists (new_year + 3600 * 1000000). split; [reflexivity | vm_compute; reflexivity].
Defined.

Lemma close_game_no_replies_witness :
  close_game no_replies game start =
    (Ok tt,
     MkWorld
       (GameStore.set_first_match "game_id" (VStr "6f1c2a9e-game")
          (no_winner_closure no_replies start (VStr "1900000000000000001")
             announcement_no_replies) (w_store start))
       (w_log start ++
          [ (INFO, MsgProcessingClosure (VStr "6f1c2a9e-game"));
            (INFO, MsgNoReplies (VStr "6f1c2a9e-game"));
            (INFO, MsgGameUpdated (VStr "6f1c2a9e-game")
                     (no_winner_closure no_replies start (VStr "1900000000000000001")
                        announcement_no_replies)) ])
       (w_calls start ++
          [ CallFindAnswers (VStr "1900000000000000001");
            CallReplyToTweet (VStr "1900000000000000001") announcement_no_replies ])
       (S (S (S (S (w_ticks start)))))).
Proof.
  apply (close_game_no_replies no_replies game start (VStr "6f1c2a9e-game")
           (VStr "1900000000000000001") an_hour_before);
    [reflexivity | reflexivity | reflexivity | vm_compute; discriminate | reflexivity].
Defined.

Lemma close_game_no_valid_wallet_witness :
  close_game no_address game start =
    (Ok tt,
     MkWorld
       (GameStore.set_first_match "game_id" (VStr "6f1c2a9e-game")
          (no_winner_closure no_address start (VStr "1900000000000000001")
             announcement_no_valid_wallet) (w_store start))
       (w_log start ++
          [ (INFO, MsgProcessingClosure (VStr "6f1c2a9e-game"));
            (INFO, MsgRepliesReceived (VStr "6f1c2a9e-game") 1);
            (INFO, MsgNoValidWallet (VStr "6f1c2a9e-game"));
            (INFO, MsgGameUpdated (VStr "6f1c2a9e-game")
                     (no_winner_closure no_address start (VStr "1900000000000000001")
                        announcement_no_valid_wallet)) ])
       (w_calls start ++
          [ CallFindAnswers (VStr "1900000000000000001");
            CallReplyToTweet (VStr "1900000000000000001") announcement_no_valid_wallet ])
       (S (S (S (S (w_ticks start)))))).
Proof.
  apply (close_game_no_valid_wallet no_address game start (VStr "6f1c2a9e-game")
           (VStr "1900000000000000001") an_hour_before reply_without_address []);
    [reflexivity | reflexivity | reflexivity | vm_compute; discriminate
    | reflexivity | reflexivity | vm_compute; reflexivity].
Defined.


Lemma verdict_naming_no_entry_witness :
  ∃ fields : dict,
    fst (announce_and_close winner_announced game (VStr "6f1c2a9e-game") [entry]
           (Structured (MkWinnerResponse (MkWinnerResult system_program "no-such-reply")
                          "Picked at random.")) start) = Ok tt
    ∧ fields !! "status" = Some (VStr "closed")
    ∧ fields !! "winner_wallet" = Some (VStr system_program)
    ∧ fields !! "winning_tweet_text" = Some (VStr "")
    ∧ fields !! "winner_username" = Some (VStr "").
Proof.
  destruct (verdict_naming_no_entry winner_announced game (VStr "6f1c2a9e-game") [entry]
              (MkWinnerResponse (MkWinnerResult system_program "no-such-reply")
                 "Picked at random.")
              start (VStr "1900000000000000001"))
    as (fields & Hrun & Hstatus & Hwallet & Htext & Hname & _);
    [reflexivity | reflexivity | |].
  - constructor; [|constructor]. eexists. split; reflexivity.
  - exists fields. rewrite Hrun. split; [reflexivity|].
    split; [exact Hstatus|]. split; [exact Hwallet|]. split; [exact Htext | exact Hname].
Defined.

Lemma sweep_stops_at_first_exception_witness :
  run_close_game_agent_task judge_unparsable two_open =
    (Raise (JudgeError "OutputParserException"),
     snd (close_game judge_unparsable game two_open)).
Proof.
  apply (sweep_stops_at_first_exception judge_unparsable two_open two_open
           (snd (close_game judge_unparsable game two_open)) [] game [second_game]
           (JudgeError "OutputParserException"));
    [by exists "mongodb://games" | compute_done | reflexivity | compute_done].
Defined.

Lemma creation_raises_after_publishing_witness :
  publish_succeeded (post_result_of duration_not_a_number start) = true
  ∧ last (w_calls (snd (run_create_game_agent_task duration_not_a_number start)))
    = Some (CallPostTweet (body_of (chosen_game_type duration_not_a_number start)))
  ∧ w_store (snd (run_create_game_agent_task duration_not_a_number start)) = w_store start.
Proof.
  apply (creation_raises_after_publishing duration_not_a_number start ValueError).
  compute_done.
Defined.

Lemma extracted_address_length_witness :
  (43 ≤ String.length wrapped_sol ≤ 44)%nat.
Proof.
  apply (extracted_address_length
           ("pay " +:+ wrapped_sol +:+ " or else " +:+ system_program) wrapped_sol);
    [vm_compute; apply list_elem_of_here | reflexivity].
Defined.

Lemma mock_tweets_hold_no_address_witness :
  Utils.extract_solana_addresses
    (MockTools.tweet_text "Debugging: Removing the needles from the haystack of bugs."
       (MockTools.generate_wallet (fun i => i))) = [].
Proof.
  apply (mock_tweets_hold_no_address
           "Debugging: Removing the needles from the haystack of bugs." (fun i => i)).
  compute_done.
Defined.

Lemma fetch_failure_is_recognised_witness :
  ∃ message,
    message ≠ ""
    ∧ fetch_error
        (Tools.find_answers_with_conversation_id no_bearer_token
           (fun _ => Tools.Returns (Tools.MkSearchResponse None None))
           (VStr "1900000000000000001"))
      = Some (VStr message).
Proof.
  apply (fetch_failure_is_recognised no_bearer_token
           (fun _ => Tools.Returns (Tools.MkSearchResponse None None))
           (VStr "1900000000000000001")).
  left. reflexivity.
Defined.

Lemma load_chat_model_ignores_model_witness :
  ChatModel.load_chat_model (fun _ => None) ("openai" +:+ "/" +:+ "gpt-3.5-turbo")
  = ChatModel.load_chat_model (fun _ => None) ("openai" +:+ "/" +:+ "o1")
  ∧ (ChatModel.is_azure "openai" = false →
     ChatModel.load_chat_model (fun _ => None) ("openai" +:+ "/" +:+ "gpt-3.5-turbo")
     = Ok (ChatModel.ChatOpenAI "gpt-4o" 0 2)).
Proof.
  apply (load_chat_model_ignores_model (fun _ => None) "openai" "gpt-3.5-turbo" "o1").
  reflexivity.
Defined.

Lemma load_chat_model_needs_slash_witness :
  ChatModel.load_chat_model (fun _ => None) "gpt-4o" = Raise ValueError.
Proof. apply (load_chat_model_needs_slash (fun _ => None) "gpt-4o"). reflexivity. Defined.

Lemma startup_check_covers_credentials_witness :
  Tools.post_tweet (RunScheduler.configuration_of (fun _ => Some "set"))
      (fun _ => Tools.RaisesTweepy "401 Unauthorized") "gm"
    ≠ Tools.error_dict "Twitter OAuth credentials not configured"
  ∧ Tools.reply_to_tweet (RunScheduler.configuration_of (fun _ => Some "set"))
      (fun _ _ => Tools.RaisesTweepy "401 Unauthorized") (VStr "1900000000000000001") "gm"
    ≠ Tools.error_dict "Twitter OAuth credentials not configured"
  ∧ ((∀ response,
        (fun _ : value => @Tools.RaisesTweepy Tools.SearchResponse "401 Unauthorized")
          (VStr "1900000000000000001") ≠ Tools.Returns response) →
     Tools.find_answers_with_conversation_id
       (RunScheduler.configuration_of (fun _ => Some "set"))
       (fun _ => Tools.RaisesTweepy "401 Unauthorized") (VStr "1900000000000000001")
     ≠ [Tools.error_dict "Twitter bearer token not configured"]).
Proof.
  apply (startup_check_covers_credentials (fun _ => Some "set")
           (fun _ => Tools.RaisesTweepy "401 Unauthorized")
           (fun _ _ => Tools.RaisesTweepy "401 Unauthorized")
           (fun _ => Tools.RaisesTweepy "401 Unauthorized")
           "gm" (VStr "1900000000000000001")).
  reflexivity.
Defined.

End MoreExamples.
